(** * DTLN weight blob exporter: a shallow embedding of
      [tools/dtln/export_dtln_weights.py] and the properties of the blob and
      manifest it writes. *)

From Stdlib Require Import ZArith List String Ascii Strings.Byte Lia Bool.
From stdpp Require Import base decidable option list gmap strings.

Set Warnings "-register-all".
Local Open Scope Z_scope.

(** ** Python values *)

(** A Python [str] is a sequence of Unicode code points. *)
Abbreviation pystr := (list N).

(** Code points of an ASCII literal. *)
Definition str (s : string) : pystr :=
  map N_of_ascii (list_ascii_of_string s).

(** A file system path, one component per element ([pathlib.Path]). *)
Abbreviation Path := (list string).

(** [Path.parent]; the root is its own parent. *)
Definition parent (p : Path) : Path := removelast p.

(** ** Bytes *)

Definition byte_of_Z (x : Z) : byte :=
  match Byte.of_N (Z.to_N (x mod 256)) with
  | Some b => b
  | None => x00
  end.

Definition Z_of_byte (b : byte) : Z := Z.of_N (Byte.to_N b).

#[global] Instance byte_eq_dec : EqDecision byte.
Proof.
  intros a b. destruct (N.eq_dec (Byte.to_N a) (Byte.to_N b)) as [H | H].
  - left. apply (f_equal Byte.of_N) in H. rewrite !Byte.of_to_N in H.
    congruence.
  - right. congruence.
Defined.

(** The [n] low-order bytes of [x], least significant first. *)
Fixpoint le_bytes (n : nat) (x : Z) : list byte :=
  match n with
  | O => []
  | S k => byte_of_Z x :: le_bytes k (x / 256)
  end.

(** The value of a little-endian byte sequence. *)
Fixpoint le_value (bs : list byte) : Z :=
  match bs with
  | [] => 0
  | b :: bs' => Z_of_byte b + 256 * le_value bs'
  end.

(** ** Exceptions *)

(** The two [RuntimeError]s of [main] carry what their messages print; the
    other constructors are the exceptions that library calls can raise. *)
Inductive exn :=
| MissingTensor (name stage : pystr)
    (* RuntimeError(f"Missing tensor '{name}' in {stage}") *)
| ShapeMismatch (name : pystr) (expected actual : list Z)
    (* RuntimeError(f"Shape mismatch for '{name}': expected ..., got ...") *)
| KeyError (key : pystr)
| StructError
| UnicodeEncodeError
| ValueError
| DecodeError   (* google.protobuf.message.DecodeError *)
| OSError (p : Path).

Inductive result (A : Type) :=
| Ok (a : A)
| Raise (e : exn).
Arguments Ok {A} a.
Arguments Raise {A} e.

#[global] Instance result_ret : MRet result := fun A a => Ok a.
#[global] Instance result_bind : MBind result := fun A B f r =>
  match r with
  | Ok a => f a
  | Raise e => Raise e
  end.

(** ** [struct.pack] *)

Inductive format :=
| LE_B   (* "<B" *)
| LE_H   (* "<H" *)
| LE_I.  (* "<I" *)

Definition format_size (f : format) : nat :=
  match f with
  | LE_B => 1
  | LE_H => 2
  | LE_I => 4
  end%nat.

(** [struct.pack(fmt, x)] for one unsigned little-endian field: raises
    [struct.error] when [x] does not fit the field. *)
Definition struct_pack (f : format) (x : Z) : result (list byte) :=
  if (0 <=? x) && (x <? 2 ^ (8 * Z.of_nat (format_size f)))
  then Ok (le_bytes (format_size f) x)
  else Raise StructError.

(** ** [str.encode("utf-8")] *)

(** One code point: one to four bytes; the surrogates and anything past
    U+10FFFF have no encoding. *)
Definition utf8_char (c : N) : result (list byte) :=
  let z := Z.of_N c in
  if z <? 128 then Ok [byte_of_Z z]
  else if z <? 2048 then
    Ok [byte_of_Z (192 + z / 64);
        byte_of_Z (128 + z mod 64)]
  else if z <? 65536 then
    if (55296 <=? z) && (z <=? 57343) then Raise UnicodeEncodeError
    else
      Ok [byte_of_Z (224 + z / 4096);
          byte_of_Z (128 + (z / 64) mod 64);
          byte_of_Z (128 + z mod 64)]
  else if z <? 1114112 then
    Ok [byte_of_Z (240 + z / 262144);
        byte_of_Z (128 + (z / 4096) mod 64);
        byte_of_Z (128 + (z / 64) mod 64);
        byte_of_Z (128 + z mod 64)]
  else Raise UnicodeEncodeError.

Fixpoint encode_utf8 (s : pystr) : result (list byte) :=
  match s with
  | [] => Ok []
  | c :: s' =>
      b ← utf8_char c;
      bs ← encode_utf8 s';
      mret (b ++ bs)
  end.

(** ** ONNX initializers and numpy arrays *)

(** One array element as [astype("float32")] stores it: the four bytes of
    its IEEE single-precision image, in memory order. *)
Definition float32 : Type := byte * byte * byte * byte.

Definition float32_bytes (x : float32) : list byte :=
  let '(a, b, c, d) := x in [a; b; c; d].

(** [onnx.TensorProto], reduced to what the exporter reads. *)
Record TensorProto := {
  tp_name : pystr;
  tp_dims : list Z;
  tp_data : list float32;
}.

Record ndarray := {
  nd_shape : list Z;
  nd_data : list float32;
}.

(** The most dimensions an array can have, and the largest [npy_intp]. *)
Definition NPY_MAXDIMS : nat := 64.
Definition NPY_MAX_INTP : Z := 2 ^ 63 - 1.

(** The product of the entries of a shape that are not negative, taken from
    left to right starting from [s_known]; nothing when a product on the
    way overflows [npy_intp]. *)
Fixpoint known_size (newshape : list Z) (s_known : Z) : option Z :=
  match newshape with
  | [] => Some s_known
  | d :: newshape' =>
      if d <? 0 then known_size newshape' s_known
      else if s_known * d <=? NPY_MAX_INTP
           then known_size newshape' (s_known * d)
           else None
  end.

(** The size in bytes of an array of a given shape as numpy checks it when
    it makes the array: the item size times the dimensions that are not
    zero, from left to right starting from [nbytes]; nothing when a product
    on the way overflows [npy_intp]. *)
Fixpoint array_nbytes (shape : list Z) (nbytes : Z) : option Z :=
  match shape with
  | [] => Some nbytes
  | d :: shape' =>
      if d =? 0 then array_nbytes shape' nbytes
      else if nbytes * d <=? NPY_MAX_INTP
           then array_nbytes shape' (nbytes * d)
           else None
  end.

(** The array of [data] under [shape], when numpy can make it; the items
    are four bytes wide. *)
Definition new_array (data : list float32) (shape : list Z) : result ndarray :=
  match array_nbytes shape 4 with
  | Some _ => Ok {| nd_shape := shape; nd_data := data |}
  | None => Raise ValueError
  end.

(** [ndarray.reshape]: at most [NPY_MAXDIMS] dimensions, whose product is
    taken without overflow; the sizes must agree; one negative entry of the
    new shape stands for the dimension numpy infers. Every failure is a
    [ValueError]. *)
Definition reshape (data : list float32) (newshape : list Z)
  : result ndarray :=
  let s_original := Z.of_nat (length data) in
  if bool_decide (NPY_MAXDIMS < length newshape)%nat then Raise ValueError
  else
    match known_size newshape 1 with
    | None => Raise ValueError
    | Some s_known =>
        match List.filter (fun d => d <? 0) newshape with
        | [] =>
            if s_original =? s_known
            then new_array data newshape
            else Raise ValueError
        | [_] =>
            if (s_known =? 0) || negb (s_original mod s_known =? 0)
            then Raise ValueError
            else new_array data
                   (map (fun d => if d <? 0 then s_original / s_known else d)
                        newshape)
        | _ => Raise ValueError
        end
    end.

(** [numpy_helper.to_array]: the stored elements, reshaped to [dims]. *)
Definition to_array (t : TensorProto) : result ndarray :=
  reshape (tp_data t) (tp_dims t).

(** [ndarray.tobytes(order="C")] of a float32 array. *)
Definition tobytes (a : ndarray) : list byte :=
  flat_map float32_bytes (nd_data a).

(** [model.graph.initializer] of a loaded [onnx.ModelProto]. *)
Definition ModelProto := list TensorProto.

(** ** [hashlib.sha256] *)

Module hashlib.

Definition w32 (x : Z) : Z := x mod 2 ^ 32.

Definition rotr (n x : Z) : Z :=
  Z.lor (Z.shiftr x n) (w32 (Z.shiftl x (32 - n))).

Definition Ch (x y z : Z) : Z :=
  Z.lxor (Z.land x y) (Z.land (Z.lxor x (2 ^ 32 - 1)) z).

Definition Maj (x y z : Z) : Z :=
  Z.lxor (Z.lxor (Z.land x y) (Z.land x z)) (Z.land y z).

Definition Sigma0 (x : Z) : Z :=
  Z.lxor (Z.lxor (rotr 2 x) (rotr 13 x)) (rotr 22 x).

Definition Sigma1 (x : Z) : Z :=
  Z.lxor (Z.lxor (rotr 6 x) (rotr 11 x)) (rotr 25 x).

Definition sigma0 (x : Z) : Z :=
  Z.lxor (Z.lxor (rotr 7 x) (rotr 18 x)) (Z.shiftr x 3).

Definition sigma1 (x : Z) : Z :=
  Z.lxor (Z.lxor (rotr 17 x) (rotr 19 x)) (Z.shiftr x 10).

(** The primes, by trial division: those among [n], [n + 1], ... *)
Fixpoint primes_from (fuel : nat) (n : Z) (found : list Z) : list Z :=
  match fuel with
  | O => found
  | S fuel' =>
      primes_from fuel' (n + 1)
        (if forallb (fun p => negb (n mod p =? 0)) found
         then found ++ [n] else found)
  end.

Definition primes (count : nat) : list Z :=
  firstn count (primes_from 310 2 []).

(** The integer cube root, one bit at a time from bit [k - 1] down. *)
Fixpoint cbrt_bits (k : nat) (n r : Z) : Z :=
  match k with
  | O => r
  | S k' =>
      let r' := r + 2 ^ Z.of_nat k' in
      cbrt_bits k' n (if r' ^ 3 <=? n then r' else r)
  end.

(** The round constants: the first 32 bits of the fractional parts of the
    cube roots of the first 64 primes. *)
Definition K : list Z :=
  Eval vm_compute in
    map (fun p => w32 (cbrt_bits 40 (p * 2 ^ 96) 0)) (primes 64).

(** The initial hash value: the first 32 bits of the fractional parts of
    the square roots of the first 8 primes. *)
Definition H0 : list Z :=
  Eval vm_compute in map (fun p => w32 (Z.sqrt (p * 2 ^ 64))) (primes 8).

(** Big-endian bytes of [x], [n] of them. *)
Fixpoint be_bytes (n : nat) (x : Z) : list Z :=
  match n with
  | O => []
  | S k => (x / 256 ^ Z.of_nat k) mod 256 :: be_bytes k x
  end.

Definition be_word (bs : list Z) : Z :=
  fold_left (fun acc b => acc * 256 + b) bs 0.

(** The message followed by the bit 1, zeros, and its length in bits on
    64 bits, a multiple of 64 bytes in all. *)
Definition pad (msg : list Z) : list Z :=
  let len := Z.of_nat (length msg) in
  msg ++ [128] ++ repeat 0 (Z.to_nat ((55 - len) mod 64))
      ++ be_bytes 8 (8 * len).

Fixpoint chunks (fuel n : nat) (l : list Z) : list (list Z) :=
  match fuel with
  | O => []
  | S fuel' =>
      match l with
      | [] => []
      | _ => firstn n l :: chunks fuel' n (skipn n l)
      end
  end.

Fixpoint schedule (n : nat) (w : list Z) : list Z :=
  match n with
  | O => w
  | S k =>
      let i := length w in
      let at_ j := nth (i - j) w 0 in
      schedule k
        (w ++ [w32 (sigma1 (at_ 2%nat) + at_ 7%nat
                    + sigma0 (at_ 15%nat) + at_ 16%nat)])
  end.

Definition round (s : list Z) (kw : Z * Z) : list Z :=
  match s with
  | [a; b; c; d; e; f; g; h] =>
      let t1 := w32 (h + Sigma1 e + Ch e f g + fst kw + snd kw) in
      let t2 := w32 (Sigma0 a + Maj a b c) in
      [w32 (t1 + t2); a; b; c; w32 (d + t1); e; f; g]
  | _ => s
  end.

Definition compress (h : list Z) (block : list Z) : list Z :=
  let w := schedule 48 (map be_word (chunks 16 4 block)) in
  let s := fold_left round (combine K w) h in
  map (fun p => w32 (fst p + snd p)) (combine h s).

Definition hex_digit (d : Z) : N :=
  Z.to_N (if d <? 10 then 48 + d else 87 + d).

(** [hashlib.sha256(data).hexdigest()] *)
Definition sha256_hexdigest (data : list byte) : pystr :=
  let msg := pad (map Z_of_byte data) in
  let h := fold_left compress (chunks (length msg) 64 msg) H0 in
  flat_map (fun b => [hex_digit (b / 16); hex_digit (b mod 16)])
           (flat_map (be_bytes 4) h).

End hashlib.

(** ** The file system and the console *)

(** What [json.dump] serialises. *)
Inductive json :=
| JInt (z : Z)
| JStr (s : pystr)
| JList (l : list json)
| JDict (items : list (pystr * json)).

(** A file holds an ONNX model (kept as [onnx.load] parses it), bytes, or
    the JSON documents dumped into a text file. *)
Inductive content :=
| Onnx (model : ModelProto)
| Binary (data : list byte)
| Text (docs : list json).

Inductive console_line :=
| Wrote (blob manifest : Path).   (* f"Wrote {BLOB_PATH} and {MANIFEST_PATH}" *)

Record World := {
  dirs : gset Path;
  files : gmap Path content;
  stdout : list console_line;
}.

Definition set_dirs (d : gset Path) (w : World) : World :=
  {| dirs := d; files := files w; stdout := stdout w |}.

Definition set_files (f : gmap Path content) (w : World) : World :=
  {| dirs := dirs w; files := f; stdout := stdout w |}.

Definition set_stdout (o : list console_line) (w : World) : World :=
  {| dirs := dirs w; files := files w; stdout := o |}.

(** Computations that read and write the world and may raise; what was
    written before an exception stays written. *)
Definition M (A : Type) : Type := World → result A * World.

#[global] Instance M_ret : MRet M := fun A a w => (Ok a, w).
#[global] Instance M_bind : MBind M := fun A B f m w =>
  match m w with
  | (Ok a, w') => f a w'
  | (Raise e, w') => (Raise e, w')
  end.

Definition lift {A} (r : result A) : M A := fun w => (r, w).

(** A path, its parent, its parent's parent, ... down to the root. *)
Fixpoint ancestors (p : Path) : list Path :=
  match p with
  | [] => [[]]
  | c :: p' => [] :: map (cons c) (ancestors p')
  end.

(** [Path.mkdir(parents=True, exist_ok=True)] *)
Definition mkdir (p : Path) : M unit := fun w =>
  if existsb (fun q => bool_decide (is_Some (files w !! q))) (ancestors p)
  then (Raise (OSError p), w)
  else (Ok tt, set_dirs (dirs w ∪ list_to_set (ancestors p)) w).

(** [open(p, "wb")] and [open(p, "w")]: the file is created or truncated to
    [empty]; the handle is the path. *)
Definition open_w (p : Path) (empty : content) : M Path := fun w =>
  if bool_decide (p ∈ dirs w) then (Raise (OSError p), w)
  else if bool_decide (parent p ∈ dirs w)
  then (Ok p, set_files (<[p := empty]> (files w)) w)
  else (Raise (OSError p), w).

(** [blob.write(b)] on a handle opened in binary mode. *)
Definition fwrite (f : Path) (b : list byte) : M unit := fun w =>
  match files w !! f with
  | Some (Binary old) => (Ok tt, set_files (<[f := Binary (old ++ b)]> (files w)) w)
  | _ => (Raise (OSError f), w)
  end.

(** [json.dump(doc, f, indent=2)] on a handle opened in text mode. *)
Definition json_dump (doc : json) (f : Path) : M unit := fun w =>
  match files w !! f with
  | Some (Text old) => (Ok tt, set_files (<[f := Text (old ++ [doc])]> (files w)) w)
  | _ => (Raise (OSError f), w)
  end.

Definition print (line : console_line) : M unit := fun w =>
  (Ok tt, set_stdout (stdout w ++ [line]) w).

(** What protobuf makes of the contents of a file. [Onnx model] is a file
    whose bytes parse to [model]; an empty file parses to a model without
    initializers; the other contents stand for bytes that are no serialized
    model. *)
Definition parse_model (c : content) : result ModelProto :=
  match c with
  | Onnx model => Ok model
  | Binary [] | Text [] => Ok []
  | Binary (_ :: _) | Text (_ :: _) => Raise DecodeError
  end.

(** [onnx.load(p)]: [FileNotFoundError], an [OSError], when there is no
    file at [p]. *)
Definition onnx_load (p : Path) : M ModelProto := fun w =>
  match files w !! p with
  | Some c => (parse_model c, w)
  | None => (Raise (OSError p), w)
  end.

(** ** The exporter *)

Definition bytes_of_string (s : string) : list byte := list_byte_of_string s.

(** Header constants for the binary format. *)
Definition MAGIC : list byte := bytes_of_string "DTLN".
Definition VERSION : Z := 1.
Definition ENDIANNESS : Z := 0.
Definition DTYPE_F32 : Z := 0.

Definition TensorDescriptor : Type := pystr * list Z * pystr.

(** Tensor ordering definitions that must stay stable. *)
Definition TENSOR_ORDER : list TensorDescriptor :=
  [ (str "lstm_4_W", [1; 512; 257], str "stage1");
    (str "lstm_4_R", [1; 512; 128], str "stage1");
    (str "lstm_4_B", [1; 1024], str "stage1");
    (str "lstm_5_W", [1; 512; 128], str "stage1");
    (str "lstm_5_R", [1; 512; 128], str "stage1");
    (str "lstm_5_B", [1; 1024], str "stage1");
    (str "dense_2/kernel:0", [128; 257], str "stage1");
    (str "dense_2/bias:0", [257], str "stage1");
    (str "conv1d_2/kernel:0", [256; 512; 1], str "stage2");
    (str "conv1d_3/kernel:0", [512; 256; 1], str "stage2");
    (str "model_2/instant_layer_normalization_1/mul/ReadVariableOp/resource:0",
     [256], str "stage2");
    (str "model_2/instant_layer_normalization_1/add_1/ReadVariableOp/resource:0",
     [256], str "stage2");
    (str "model_2/lstm_6/MatMul/ReadVariableOp/resource:0", [256; 512], str "stage2");
    (str "model_2/lstm_6/MatMul_1/ReadVariableOp/resource:0", [128; 512], str "stage2");
    (str "model_2/lstm_6/BiasAdd/ReadVariableOp/resource:0", [512], str "stage2");
    (str "model_2/lstm_7/MatMul/ReadVariableOp/resource:0", [128; 512], str "stage2");
    (str "model_2/lstm_7/MatMul_1/ReadVariableOp/resource:0", [128; 512], str "stage2");
    (str "model_2/lstm_7/BiasAdd/ReadVariableOp/resource:0", [512], str "stage2");
    (str "model_2/dense_3/Tensordot/Reshape_1:0", [128; 256], str "stage2");
    (str "model_2/dense_3/BiasAdd/ReadVariableOp/resource:0", [256], str "stage2") ].

Definition load_initializers (model_path : Path) : M (gmap pystr TensorProto) :=
  model ← onnx_load model_path;
  mret (foldl (fun d init => <[tp_name init := init]> d) ∅ model).

Definition float32_bytes_from_initializer (initializer : TensorProto)
  : result (list byte) :=
  array ← to_array initializer;
  mret (tobytes array).

Definition infer_shape (initializer : TensorProto) : list Z :=
  tp_dims initializer.

(** One element of [entries]: the dict with keys "name", "shape", "len",
    "bytes" and "stage". *)
Record Entry := {
  e_name : pystr;
  e_shape : list Z;
  e_len : Z;
  e_bytes : list byte;
  e_stage : pystr;
}.

(** The loop [for name, expected_shape, stage in TENSOR_ORDER], appending to
    [entries]. *)
Fixpoint collect_entries (models : gmap pystr (gmap pystr TensorProto))
    (order : list TensorDescriptor) (entries : list Entry)
  : result (list Entry) :=
  match order with
  | [] => Ok entries
  | (name, expected_shape, stage) :: order' =>
      match models !! stage with
      | None => Raise (KeyError stage)
      | Some pool =>
          match pool !! name with
          | None => Raise (MissingTensor name stage)
          | Some init =>
              let actual_shape := infer_shape init in
              if bool_decide (actual_shape ≠ expected_shape)
              then Raise (ShapeMismatch name expected_shape actual_shape)
              else
                data ← float32_bytes_from_initializer init;
                collect_entries models order'
                  (entries ++ [ {| e_name := name;
                                   e_shape := actual_shape;
                                   e_len := Z.of_nat (length data) / 4;
                                   e_bytes := data;
                                   e_stage := stage |} ])
          end
      end
  end.

(** [blob.write(struct.pack(fmt, x))] *)
Definition write_packed (blob : Path) (fmt : format) (x : Z) : M unit :=
  b ← lift (struct_pack fmt x);
  fwrite blob b.

(** [for dim in entry["shape"]: blob.write(struct.pack("<I", dim))] *)
Fixpoint write_dims (blob : Path) (shape : list Z) : M unit :=
  match shape with
  | [] => mret tt
  | dim :: shape' =>
      write_packed blob LE_I dim;;
      write_dims blob shape'
  end.

(** The descriptor loop, with its running [offset]. *)
Fixpoint write_descriptors (blob : Path) (entries : list Entry) (offset : Z)
  : M unit :=
  match entries with
  | [] => mret tt
  | entry :: entries' =>
      name_bytes ← lift (encode_utf8 (e_name entry));
      write_packed blob LE_H (Z.of_nat (length name_bytes));;
      fwrite blob name_bytes;;
      write_packed blob LE_B (Z.of_nat (length (e_shape entry)));;
      write_dims blob (e_shape entry);;
      write_packed blob LE_I offset;;
      write_packed blob LE_I (e_len entry);;
      write_descriptors blob entries'
        (offset + Z.of_nat (length (e_bytes entry)))
  end.

(** [for entry in entries: blob.write(entry["bytes"])] *)
Fixpoint write_payloads (blob : Path) (entries : list Entry) : M unit :=
  match entries with
  | [] => mret tt
  | entry :: entries' =>
      fwrite blob (e_bytes entry);;
      write_payloads blob entries'
  end.

Definition manifest_tensor (entry : Entry) : json :=
  JDict [ (str "name", JStr (e_name entry));
          (str "shape", JList (map JInt (e_shape entry)));
          (str "stage", JStr (e_stage entry));
          (str "len", JInt (e_len entry));
          (str "checksum", JStr (hashlib.sha256_hexdigest (e_bytes entry))) ].

Definition manifest_of (entries : list Entry) : json :=
  JDict [ (str "version", JInt VERSION);
          (str "dtype", JStr (str "f32"));
          (str "tensor_count", JInt (Z.of_nat (length entries)));
          (str "tensors", JList (map manifest_tensor entries)) ].

Section Exporter.

(** The resolved location of the script. *)
Variable __file__ : Path.

Definition ROOT : Path := parent (parent (parent __file__)).
Definition ASSETS_DIR : Path := ROOT ++ ["assets"; "dtln"]%string.
Definition MODELS_DIR : Path := ROOT ++ ["src"; "assets"; "models"; "dtln"]%string.

Definition BLOB_PATH : Path := ASSETS_DIR ++ ["dtln_weights_v1.bin"]%string.
Definition MANIFEST_PATH : Path :=
  ASSETS_DIR ++ ["dtln_weights_v1.manifest.json"]%string.

(** [main], with the catalog it iterates over as an argument. *)
Definition main_with (order : list TensorDescriptor) : M unit :=
  mkdir ASSETS_DIR;;
  stage1 ← load_initializers (MODELS_DIR ++ ["model_1.onnx"]%string);
  stage2 ← load_initializers (MODELS_DIR ++ ["model_2.onnx"]%string);
  let models : gmap pystr (gmap pystr TensorProto) :=
    <[str "stage2" := stage2]> (<[str "stage1" := stage1]> ∅) in
  entries ← lift (collect_entries models order []);
  blob ← open_w BLOB_PATH (Binary []);
  fwrite blob MAGIC;;
  write_packed blob LE_I VERSION;;
  write_packed blob LE_B ENDIANNESS;;
  write_packed blob LE_B DTYPE_F32;;
  write_packed blob LE_I (Z.of_nat (length entries));;
  write_descriptors blob entries 0;;
  write_payloads blob entries;;
  let manifest := manifest_of entries in
  manifest_file ← open_w MANIFEST_PATH (Text []);
  json_dump manifest manifest_file;;
  print (Wrote BLOB_PATH MANIFEST_PATH).

Definition main : M unit := main_with TENSOR_ORDER.

End Exporter.

(** ** The blob layout, as the format description gives it *)

Record BlobHeader := {
  magic : list byte;
  version : Z;
  endianness : Z;
  dtype : Z;
  tensor_count : Z;
}.

Record DescriptorRecord := {
  r_name_length : Z;
  r_name_bytes : list byte;
  r_dim_count : Z;
  r_dims : list Z;
  r_offset : Z;
  r_length : Z;
}.

(** [x] fits an unsigned field of [n] bytes. *)
Definition fits (n : nat) (x : Z) : Prop := 0 <= x < 2 ^ (8 * Z.of_nat n).

Definition header_wf (h : BlobHeader) : Prop :=
  length (magic h) = 4%nat ∧ fits 4 (version h) ∧ fits 1 (endianness h)
  ∧ fits 1 (dtype h) ∧ fits 4 (tensor_count h).

Definition record_wf (r : DescriptorRecord) : Prop :=
  r_name_length r = Z.of_nat (length (r_name_bytes r))
  ∧ fits 2 (r_name_length r)
  ∧ r_dim_count r = Z.of_nat (length (r_dims r))
  ∧ fits 1 (r_dim_count r)
  ∧ Forall (fits 4) (r_dims r)
  ∧ fits 4 (r_offset r)
  ∧ fits 4 (r_length r).

Definition encode_header (h : BlobHeader) : list byte :=
  magic h ++ le_bytes 4 (version h) ++ le_bytes 1 (endianness h)
    ++ le_bytes 1 (dtype h) ++ le_bytes 4 (tensor_count h).

Definition encode_record (r : DescriptorRecord) : list byte :=
  le_bytes 2 (r_name_length r) ++ r_name_bytes r
    ++ le_bytes 1 (r_dim_count r) ++ flat_map (le_bytes 4) (r_dims r)
    ++ le_bytes 4 (r_offset r) ++ le_bytes 4 (r_length r).

Definition encode_table (rs : list DescriptorRecord) : list byte :=
  flat_map encode_record rs.

(** The payload bytes a descriptor points at: [[offset, offset + length*4)]. *)
Definition payload_slice (r : DescriptorRecord) (payload : list byte)
  : list byte :=
  take (Z.to_nat (r_length r * 4)) (drop (Z.to_nat (r_offset r)) payload).

(** Offset contiguity of a descriptor table, from [start]. *)
Fixpoint contiguous (start : Z) (rs : list DescriptorRecord) : Prop :=
  match rs with
  | [] => True
  | r :: rs' => r_offset r = start ∧ contiguous (start + r_length r * 4) rs'
  end.

(** The header the exporter writes for [n] tensors. *)
Definition header_of (n : nat) : BlobHeader :=
  {| magic := MAGIC; version := VERSION; endianness := ENDIANNESS;
     dtype := DTYPE_F32; tensor_count := Z.of_nat n |}.

(** The descriptor of an entry placed at [offset], when its name encodes. *)
Definition record_of (name_bytes : list byte) (entry : Entry) (offset : Z)
  : DescriptorRecord :=
  {| r_name_length := Z.of_nat (length name_bytes);
     r_name_bytes := name_bytes;
     r_dim_count := Z.of_nat (length (e_shape entry));
     r_dims := e_shape entry;
     r_offset := offset;
     r_length := e_len entry |}.

(** ** The reader *)

(** Modelled from the spec: the Blob Reader / Validator (section 4.5: [open]
    and [tensor]) has no source file; this follows the operations and the
    layout of sections 4.5 and 6. *)
Inductive reader_error :=
| InvalidHeader
| UnknownTensor.

Record Handle := {
  h_header : BlobHeader;
  h_table : list DescriptorRecord;
  h_payload : list byte;
}.

Definition read_bytes (n : nat) (bs : list byte)
  : option (list byte * list byte) :=
  if decide (n ≤ length bs)%nat then Some (take n bs, drop n bs) else None.

Definition read_uint (n : nat) (bs : list byte) : option (Z * list byte) :=
  '(field, rest) ← read_bytes n bs;
  Some (le_value field, rest).

Fixpoint read_dims (count : nat) (bs : list byte)
  : option (list Z * list byte) :=
  match count with
  | O => Some ([], bs)
  | S count' =>
      '(dim, bs1) ← read_uint 4 bs;
      '(dims, bs2) ← read_dims count' bs1;
      Some (dim :: dims, bs2)
  end.

Definition read_record (bs : list byte)
  : option (DescriptorRecord * list byte) :=
  '(name_len, bs1) ← read_uint 2 bs;
  '(name, bs2) ← read_bytes (Z.to_nat name_len) bs1;
  '(dim_count, bs3) ← read_uint 1 bs2;
  '(dims, bs4) ← read_dims (Z.to_nat dim_count) bs3;
  '(payload_offset, bs5) ← read_uint 4 bs4;
  '(element_count, bs6) ← read_uint 4 bs5;
  Some ({| r_name_length := name_len; r_name_bytes := name;
           r_dim_count := dim_count; r_dims := dims;
           r_offset := payload_offset; r_length := element_count |}, bs6).

Fixpoint read_table (count : nat) (bs : list byte)
  : option (list DescriptorRecord * list byte) :=
  match count with
  | O => Some ([], bs)
  | S count' =>
      '(r, bs1) ← read_record bs;
      '(rs, bs2) ← read_table count' bs1;
      Some (r :: rs, bs2)
  end.

Definition read_header (bs : list byte) : option (BlobHeader * list byte) :=
  '(tag, bs1) ← read_bytes 4 bs;
  '(ver, bs2) ← read_uint 4 bs1;
  '(endian, bs3) ← read_uint 1 bs2;
  '(dt, bs4) ← read_uint 1 bs3;
  '(count, bs5) ← read_uint 4 bs4;
  Some ({| magic := tag; version := ver; endianness := endian;
           dtype := dt; tensor_count := count |}, bs5).

(** Modelled from the spec: [open(bytes) -> Handle | fails with
    InvalidHeader]; magic, version, endianness and dtype are checked and the
    descriptor table is parsed in full. *)
Definition reader_open (bs : list byte) : reader_error + Handle :=
  match read_header bs with
  | None => inl InvalidHeader
  | Some (h, rest) =>
      if bool_decide (magic h = MAGIC ∧ version h = VERSION
                      ∧ endianness h = ENDIANNESS ∧ dtype h = DTYPE_F32)
      then
        match read_table (Z.to_nat (tensor_count h)) rest with
        | None => inl InvalidHeader
        | Some (table, payload) =>
            inr {| h_header := h; h_table := table; h_payload := payload |}
        end
      else inl InvalidHeader
  end.

(** Modelled from the spec: [tensor(handle, name) -> (shape, byte slice) |
    fails with UnknownTensor]: a lookup into the parsed descriptor table and
    the view [[offset, offset + length*4)] of the payload section. *)
Definition reader_tensor (h : Handle) (name : pystr)
  : reader_error + (list Z * list byte) :=
  match encode_utf8 name with
  | Raise _ => inl UnknownTensor
  | Ok wanted =>
      match List.find (fun r => bool_decide (r_name_bytes r = wanted))
                      (h_table h) with
      | None => inl UnknownTensor
      | Some r => inr (r_dims r, payload_slice r (h_payload h))
      end
  end.

(** ** Phases of [main] and what a run reads *)

(** The world with file [f] holding [c]. *)
Definition put (f : Path) (c : content) (w : World) : World :=
  set_files (<[f := c]> (files w)) w.

(** The body of the validation loop for one catalog entry. *)
Definition entry_for (models : gmap pystr (gmap pystr TensorProto))
    (d : TensorDescriptor) : result Entry :=
  let '(name, expected_shape, stage) := d in
  match models !! stage with
  | None => Raise (KeyError stage)
  | Some pool =>
      match pool !! name with
      | None => Raise (MissingTensor name stage)
      | Some init =>
          let actual_shape := infer_shape init in
          if bool_decide (actual_shape ≠ expected_shape)
          then Raise (ShapeMismatch name expected_shape actual_shape)
          else
            data ← float32_bytes_from_initializer init;
            mret {| e_name := name;
                    e_shape := actual_shape;
                    e_len := Z.of_nat (length data) / 4;
                    e_bytes := data;
                    e_stage := stage |}
      end
  end.

(** What the source extraction adapter hands over for a stage and a name:
    the shape and the float32 payload of the initializer of that name. *)
Definition adapter_lookup (models : gmap pystr (gmap pystr TensorProto))
    (stage name : pystr) : option (list Z * list byte) :=
  pool ← models !! stage;
  init ← pool !! name;
  Some (infer_shape init, flat_map float32_bytes (tp_data init)).

(** Number of elements of an array of a given shape. *)
Definition product (shape : list Z) : Z := fold_right Z.mul 1 shape.

(** The descriptor table of [entries], the first one placed at [offset]. *)
Fixpoint table_of (entries : list Entry) (offset : Z)
  : result (list DescriptorRecord) :=
  match entries with
  | [] => Ok []
  | entry :: entries' =>
      name_bytes ← encode_utf8 (e_name entry);
      rs ← table_of entries' (offset + Z.of_nat (length (e_bytes entry)));
      mret (record_of name_bytes entry offset :: rs)
  end.

Section Phases.

Variable __file__ : Path.

(** [main] up to the [models] dict. *)
Definition setup : M (gmap pystr (gmap pystr TensorProto)) :=
  mkdir (ASSETS_DIR __file__);;
  stage1 ← load_initializers (MODELS_DIR __file__ ++ ["model_1.onnx"]%string);
  stage2 ← load_initializers (MODELS_DIR __file__ ++ ["model_2.onnx"]%string);
  mret (<[str "stage2" := stage2]> (<[str "stage1" := stage1]> ∅)).

(** [main] from [with open(BLOB_PATH, "wb")] on. *)
Definition emit (entries : list Entry) : M unit :=
  blob ← open_w (BLOB_PATH __file__) (Binary []);
  fwrite blob MAGIC;;
  write_packed blob LE_I VERSION;;
  write_packed blob LE_B ENDIANNESS;;
  write_packed blob LE_B DTYPE_F32;;
  write_packed blob LE_I (Z.of_nat (length entries));;
  write_descriptors blob entries 0;;
  write_payloads blob entries;;
  let manifest := manifest_of entries in
  manifest_file ← open_w (MANIFEST_PATH __file__) (Text []);
  json_dump manifest manifest_file;;
  print (Wrote (BLOB_PATH __file__) (MANIFEST_PATH __file__)).

End Phases.

(** ** Notions the properties are stated with *)

(** The entry of a catalog descriptor, when the loop body accepts it. *)
Definition entry_of (name stage : pystr) (init : TensorProto) : Entry :=
  {| e_name := name;
     e_shape := tp_dims init;
     e_len := Z.of_nat (length (tp_data init));
     e_bytes := flat_map float32_bytes (tp_data init);
     e_stage := stage |}.

(** The blob of [entries] with descriptor table [rs]. *)
Definition blob_bytes (rs : list DescriptorRecord) (entries : list Entry)
  : list byte :=
  encode_header (header_of (length entries)) ++ encode_table rs
    ++ concat (map e_bytes entries).

(** The world a successful [emit] leaves. *)
Definition emitted (file : Path) (rs : list DescriptorRecord)
    (entries : list Entry) (w : World) : World :=
  set_stdout (stdout w ++ [Wrote (BLOB_PATH file) (MANIFEST_PATH file)])
    (put (MANIFEST_PATH file) (Text [manifest_of entries])
       (put (BLOB_PATH file) (Binary (blob_bytes rs entries)) w)).

(** The dict [load_initializers] builds from the initializers of a model. *)
Definition initializers (model : ModelProto) : gmap pystr TensorProto :=
  foldl (fun d init => <[tp_name init := init]> d) ∅ model.

(** The [models] dict of [main], from the two loaded models. *)
Definition models_of (model_1 model_2 : ModelProto)
  : gmap pystr (gmap pystr TensorProto) :=
  <[str "stage2" := initializers model_2]>
    (<[str "stage1" := initializers model_1]> ∅).

(** [n] elements, all zero. *)
Definition zeros (n : Z) : list float32 := repeat (x00, x00, x00, x00) (Z.to_nat n).

(** A model holding, for each entry of [order] in [stage], a tensor of
    zeros of the expected shape. *)
Definition model_for (stage : pystr) (order : list TensorDescriptor)
  : ModelProto :=
  map (fun d : TensorDescriptor =>
         {| tp_name := d.1.1; tp_dims := d.1.2;
            tp_data := zeros (product d.1.2) |})
      (List.filter (fun d : TensorDescriptor => bool_decide (d.2 = stage)) order).

Module Examples.

(** The float32 of a given IEEE bit pattern, in memory order. *)
Definition f32 (bits : Z) : float32 :=
  (byte_of_Z bits, byte_of_Z (bits / 256), byte_of_Z (bits / 65536),
   byte_of_Z (bits / 16777216)).

Definition script : Path :=
  ["repo"; "tools"; "dtln"; "export_dtln_weights.py"]%string.

(** A world holding the two models and nothing else. *)
Definition world (model_1 model_2 : ModelProto) : World :=
  {| dirs := ∅;
     files := <[MODELS_DIR script ++ ["model_2.onnx"%string] := Onnx model_2]>
                (<[MODELS_DIR script ++ ["model_1.onnx"%string] := Onnx model_1]> ∅);
     stdout := [] |}.

(** The example scenario of the format description: [a] holds 1, 2, 3, 4
    and [b] holds 5, 6, 7. *)
Definition catalog : list TensorDescriptor :=
  [ (str "a", [2; 2], str "stage1"); (str "b", [3], str "stage1") ].

Definition tensor_a : TensorProto :=
  {| tp_name := str "a"; tp_dims := [2; 2];
     tp_data := [f32 0x3f800000; f32 0x40000000; f32 0x40400000; f32 0x40800000] |}.

Definition tensor_b : TensorProto :=
  {| tp_name := str "b"; tp_dims := [3];
     tp_data := [f32 0x40a00000; f32 0x40c00000; f32 0x40e00000] |}.

Definition good : World := world [tensor_a; tensor_b] [].

(** [a] stored flat, as a vector of four elements. *)
Definition tensor_a_flat : TensorProto :=
  {| tp_name := str "a"; tp_dims := [4]; tp_data := tp_data tensor_a |}.

(** [b] with one element more than the catalog expects. *)
Definition tensor_b_long : TensorProto :=
  {| tp_name := str "b"; tp_dims := [4];
     tp_data := [f32 0x40a00000; f32 0x40c00000; f32 0x40e00000; f32 0x41000000] |}.

(** Only [a] is there. *)
Definition incomplete : World := world [tensor_a] [].

(** [a] is right, [b] has the wrong shape. *)
Definition misshapen : World := world [tensor_a; tensor_b_long] [].

(** [a] is absent, [b] has the wrong shape. *)
Definition absent_then_misshapen : World := world [tensor_b_long] [].

(** [a] has the wrong shape, [b] is absent. *)
Definition misshapen_then_absent : World := world [tensor_a_flat] [].

(** A second-stage tensor that is also called [a]. *)
Definition tensor_a_short : TensorProto :=
  {| tp_name := str "a"; tp_dims := [3]; tp_data := tp_data tensor_b |}.

(** A catalog with one name in both stages. *)
Definition twins : list TensorDescriptor :=
  [ (str "a", [2; 2], str "stage1"); (str "a", [3], str "stage2") ].

Definition twin_world : World := world [tensor_a] [tensor_a_short].

(** A model that names [a] twice. *)
Definition doubled : World := world [tensor_a; tensor_a_flat] [].

(** Only the first model file is there. *)
Definition half : World :=
  {| dirs := ∅;
     files := <[MODELS_DIR script ++ ["model_1.onnx"%string]
                := Onnx [tensor_a; tensor_b]]> ∅;
     stdout := [] |}.

(** The assets directory cannot be made: [assets] is a file. *)
Definition blocked : World :=
  {| dirs := ∅;
     files := <[ROOT script ++ ["assets"%string] := Binary []]> (files good);
     stdout := [] |}.

(** A catalog whose second entry names a stage that does not exist. *)
Definition stray : list TensorDescriptor :=
  [ (str "a", [2; 2], str "stage1"); (str "b", [3], str "stage3") ].

(** [b] announcing three elements and holding four. *)
Definition tensor_b_odd : TensorProto :=
  {| tp_name := str "b"; tp_dims := [3]; tp_data := tp_data tensor_b_long |}.

Definition inconsistent : World := world [tensor_a; tensor_b_odd] [].


(** The two models of a complete export, all weights zero. *)
Definition shipped : World :=
  world (model_for (str "stage1") TENSOR_ORDER)
    (model_for (str "stage2") TENSOR_ORDER).

(** The world [main_with script order] leaves behind. *)
Definition after (order : list TensorDescriptor) (w : World) : World :=
  snd (main_with script order w).

End Examples.

(** Every expected shape of the catalog is made of positive integers. *)
Definition catalog_positive (order : list TensorDescriptor) : Prop :=
  Forall (fun d : TensorDescriptor => Forall (fun n => 0 < n) d.1.2) order.

(** [offset[0] == 0] and [offset[i+1] == offset[i] + length[i]*4]. *)
Definition offsets_chained (rs : list DescriptorRecord) : Prop :=
  (∀ r, rs !! 0%nat = Some r → r_offset r = 0)
  ∧ ∀ (i : nat) r r', rs !! i = Some r → rs !! S i = Some r' →
      r_offset r' = r_offset r + r_length r * 4.

Definition offsets_increasing (rs : list DescriptorRecord) : Prop :=
  ∀ (i j : nat) ri rj, (i < j)%nat → rs !! i = Some ri → rs !! j = Some rj →
    r_offset ri < r_offset rj.

(** The payload regions [[offset, offset + length*4)] of two descriptors
    have no byte in common. *)
Definition regions_disjoint (rs : list DescriptorRecord) : Prop :=
  ∀ (i j : nat) ri rj, i ≠ j → rs !! i = Some ri → rs !! j = Some rj →
    r_offset ri + r_length ri * 4 <= r_offset rj
    ∨ r_offset rj + r_length rj * 4 <= r_offset ri.

(** The value under [key] of a JSON object. *)
Definition json_get (key : pystr) (j : json) : option json :=
  match j with
  | JDict items =>
      snd <$> List.find (fun kv : pystr * json => bool_decide (kv.1 = key)) items
  | _ => None
  end.

(** The manifest entry of a catalog descriptor whose tensor has [len]
    elements and the payload bytes [payload]. *)
Definition manifest_entry (d : TensorDescriptor) (len : Z)
    (payload : list byte) : json :=
  JDict [ (str "name", JStr d.1.1);
          (str "shape", JList (map JInt d.1.2));
          (str "stage", JStr d.2);
          (str "len", JInt len);
          (str "checksum", JStr (hashlib.sha256_hexdigest payload)) ].

Definition sum_Z (l : list Z) : Z := fold_right Z.add 0 l.

(** The two errors of the validation loop. *)
Definition validation_error (e : exn) : Prop :=
  match e with
  | MissingTensor _ _ | ShapeMismatch _ _ _ => True
  | _ => False
  end.

(** [m] raises nothing but exceptions in [P]. *)
Definition raises_only (P : exn → Prop) {A} (m : M A) : Prop :=
  ∀ w e w', m w = (Raise e, w') → P e.

(** The catalog entry [d] passes the loop body. *)
Definition accepted (models : gmap pystr (gmap pystr TensorProto))
    (d : TensorDescriptor) : Prop :=
  ∃ e, entry_for models d = Ok e.

Definition is_ok {A} (r : result A) : bool :=
  match r with Ok _ => true | Raise _ => false end.

(** What the models under [MODELS_DIR] hand over for a stage and a name. *)
Definition adapter (file : Path) (w : World) (stage name : pystr)
  : option (list Z * list byte) :=
  match fst (setup file w) with
  | Ok models => adapter_lookup models stage name
  | Raise _ => None
  end.

(** What a run prints: [out] when it returns, nothing when it raises. *)
Definition printed {A} (r : result A) (out : list console_line)
  : list console_line :=
  match r with
  | Ok _ => out
  | Raise _ => []
  end.

(** [m] writes no file outside [ps], removes no file and no directory, and
    prints [out] when it returns and nothing otherwise. *)
Definition bounded (ps : list Path) (out : list console_line) {A} (m : M A)
  : Prop :=
  ∀ w r w', m w = (r, w') →
    (∀ p, p ∉ ps → files w' !! p = files w !! p)
    ∧ (∀ p, is_Some (files w !! p) → is_Some (files w' !! p))
    ∧ dirs w ⊆ dirs w'
    ∧ stdout w' = stdout w ++ printed r out.

(** The file at [p] holds an ONNX model. *)
Definition holds_model (w : World) (p : Path) : Prop :=
  ∃ model, files w !! p = Some (Onnx model).

(** [onnx.load] finds a file at [p] and reads [model] from it. *)
Definition loads (w : World) (p : Path) (model : ModelProto) : Prop :=
  ∃ c, files w !! p = Some c ∧ parse_model c = Ok model.




(** Length in bytes of the UTF-8 encoding of a name. *)
Definition utf8_length (s : pystr) : Z :=
  match encode_utf8 s with
  | Ok b => Z.of_nat (length b)
  | Raise _ => 0
  end.

(** Bytes the blob spends on a catalog entry: its descriptor and its
    payload. *)
Definition entry_size (d : TensorDescriptor) : Z :=
  11 + utf8_length d.1.1 + 4 * Z.of_nat (length d.1.2) + 4 * product d.1.2.

Definition blob_size (order : list TensorDescriptor) : Z :=
  14 + sum_Z (map entry_size order).

(** The models hold, for the catalog entry [d], a tensor of the expected
    shape with as many elements as the shape announces. *)
Definition supplies (models : gmap pystr (gmap pystr TensorProto))
    (d : TensorDescriptor) : Prop :=
  ∃ pool init,
    models !! d.2 = Some pool ∧ pool !! d.1.1 = Some init
    ∧ tp_dims init = d.1.2
    ∧ Z.of_nat (length (tp_data init)) = product d.1.2.

(** The catalog entry [d] can be converted and written: the name encodes
    into fewer than 2^16 bytes, and the shape has at most [NPY_MAXDIMS]
    dimensions, all positive, and fewer than 2^32 elements. *)
Definition descriptor_fits (d : TensorDescriptor) : Prop :=
  match encode_utf8 d.1.1 with
  | Ok b => Z.of_nat (length b) < 2 ^ 16
  | Raise _ => False
  end
  ∧ (length d.1.2 ≤ NPY_MAXDIMS)%nat
  ∧ Forall (fun n => 0 < n) d.1.2
  ∧ product d.1.2 < 2 ^ 32.

(** The checks of [descriptor_fits], as a computation. *)
Definition descriptor_fitsb (d : TensorDescriptor) : bool :=
  match encode_utf8 d.1.1 with
  | Ok b => Z.of_nat (length b) <? 2 ^ 16
  | Raise _ => false
  end
  && bool_decide (length d.1.2 ≤ NPY_MAXDIMS)%nat
  && forallb (fun n => 0 <? n) d.1.2
  && (product d.1.2 <? 2 ^ 32).

(** * Properties *)

(** ** [hashlib.sha256] on the test vectors of FIPS 180 *)

Example sha256_abc :
  hashlib.sha256_hexdigest (bytes_of_string "abc")
  = str "ba7816bf8f01cfea414140de5dae2223b00361a396177a9cb410ff61f20015ad".
Proof. vm_compute. reflexivity. Qed.

Example sha256_empty :
  hashlib.sha256_hexdigest []
  = str "e3b0c44298fc1c149afbf4c8996fb92427ae41e4649b934ca495991b7852b855".
Proof. vm_compute. reflexivity. Qed.

Example sha256_two_blocks :
  hashlib.sha256_hexdigest
    (bytes_of_string "abcdbcdecdefdefgefghfghighijhijkijkljklmklmnlmnomnopnopq")
  = str "248d6a61d20638b8e5c026930c3e6039a33ce45964ff2167f6ecedd419db06c1".
Proof. vm_compute. reflexivity. Qed.

(** ** Bytes and fixed-width fields *)

Lemma Z_of_byte_range b : 0 <= Z_of_byte b < 256.
Proof.
  unfold Z_of_byte. pose proof (Byte.to_N_bounded b). lia.
Qed.

Lemma Z_of_byte_of_Z x : Z_of_byte (byte_of_Z x) = x mod 256.
Proof.
  unfold Z_of_byte, byte_of_Z.
  assert (Hr : 0 <= x mod 256 < 256) by (apply Z.mod_pos_bound; lia).
  destruct (Byte.of_N (Z.to_N (x mod 256))) as [b|] eqn:E.
  - apply Byte.to_of_N in E. rewrite E. lia.
  - apply Byte.of_N_None_iff in E. lia.
Qed.

Lemma byte_of_Z_inj x y :
  0 <= x < 256 → 0 <= y < 256 → byte_of_Z x = byte_of_Z y → x = y.
Proof.
  intros Hx Hy H. apply (f_equal Z_of_byte) in H.
  rewrite !Z_of_byte_of_Z, !Z.mod_small in H; lia.
Qed.

Lemma length_le_bytes n x : length (le_bytes n x) = n.
Proof. revert x; induction n; intros; simpl; auto. Qed.

Lemma le_value_le_bytes n x : fits n x → le_value (le_bytes n x) = x.
Proof.
  unfold fits. revert x. induction n as [|n IH]; intros x Hx.
  - simpl in *. lia.
  - cbn [le_bytes le_value]. rewrite Z_of_byte_of_Z.
    rewrite IH.
    + pose proof (Z.div_mod x 256). lia.
    + replace (8 * Z.of_nat (S n)) with (8 + 8 * Z.of_nat n) in Hx by lia.
      rewrite Z.pow_add_r in Hx by lia.
      change (2 ^ 8) with 256 in Hx.
      split; [apply Z.div_pos; lia|].
      apply Z.div_lt_upper_bound; lia.
Qed.

Lemma struct_pack_ok f x bs :
  struct_pack f x = Ok bs ↔ fits (format_size f) x ∧ bs = le_bytes (format_size f) x.
Proof.
  unfold struct_pack, fits.
  destruct (0 <=? x) eqn:E1; destruct (x <? 2 ^ (8 * Z.of_nat (format_size f))) eqn:E2;
    simpl; split; intros H; try discriminate.
  - inversion H. split; [lia | reflexivity].
  - destruct H as [_ ->]. reflexivity.
  - lia.
  - lia.
  - lia.
Qed.

(** ** The monad of [main] *)

Lemma bind_ok {A B} (m : M A) (k : A → M B) w b w' :
  (m ≫= k) w = (Ok b, w') ↔ ∃ a w1, m w = (Ok a, w1) ∧ k a w1 = (Ok b, w').
Proof.
  unfold mbind, M_bind. split.
  - destruct (m w) as [[a | e] w1]; [eauto | discriminate].
  - intros (a & w1 & -> & H). exact H.
Qed.

Lemma bind_raise {A B} (m : M A) (k : A → M B) w e w' :
  (m ≫= k) w = (Raise e, w') ↔
  m w = (Raise e, w') ∨ ∃ a w1, m w = (Ok a, w1) ∧ k a w1 = (Raise e, w').
Proof.
  unfold mbind, M_bind. split.
  - destruct (m w) as [[a | e1] w1]; [eauto | intros [= -> ->]; left; reflexivity].
  - intros [-> | (a & w1 & -> & H)]; [reflexivity | exact H].
Qed.

Lemma lift_ok {A} (r : result A) w a w' :
  lift r w = (Ok a, w') ↔ r = Ok a ∧ w' = w.
Proof. unfold lift. split; [intros [= -> ->] | intros [-> ->]]; auto. Qed.

Lemma result_bind_ok {A B} (r : result A) (k : A → result B) b :
  r ≫= k = Ok b ↔ ∃ a, r = Ok a ∧ k a = Ok b.
Proof.
  unfold mbind, result_bind. split.
  - destruct r; [eauto | discriminate].
  - intros (a & -> & H). exact H.
Qed.

Lemma files_put f c w : files (put f c w) = <[f := c]> (files w).
Proof. reflexivity. Qed.

Lemma put_put f c1 c2 w : put f c2 (put f c1 w) = put f c2 w.
Proof.
  unfold put, set_files. simpl. f_equal. apply insert_insert_eq.
Qed.

Lemma fwrite_spec f b w old :
  files w !! f = Some (Binary old) →
  fwrite f b w = (Ok tt, put f (Binary (old ++ b)) w).
Proof. intros H. unfold fwrite. rewrite H. reflexivity. Qed.

Lemma write_packed_ok f fmt x w w' old :
  files w !! f = Some (Binary old) →
  write_packed f fmt x w = (Ok tt, w') ↔
  fits (format_size fmt) x
  ∧ w' = put f (Binary (old ++ le_bytes (format_size fmt) x)) w.
Proof.
  intros Hf. unfold write_packed. rewrite bind_ok. split.
  - intros (bs & w1 & H1 & H2). apply lift_ok in H1 as [H1 ->].
    apply struct_pack_ok in H1 as [Hfit ->].
    rewrite (fwrite_spec _ _ _ _ Hf) in H2. inversion H2. auto.
  - intros [Hfit ->]. exists (le_bytes (format_size fmt) x), w. split.
    + apply lift_ok. split; [|reflexivity]. apply struct_pack_ok. auto.
    + apply fwrite_spec, Hf.
Qed.

(** ** The validation loop *)

Lemma main_with_phases file order w :
  main_with file order w =
  (models ← setup file;
   entries ← lift (collect_entries models order []);
   emit file entries) w.
Proof.
  unfold main_with, setup, emit, mbind, M_bind, mret, M_ret.
  destruct (mkdir (ASSETS_DIR file) w) as [[[] | e] w1]; [|reflexivity].
  destruct (load_initializers _ w1) as [[s1 | e] w2]; [|reflexivity].
  destruct (load_initializers _ w2) as [[s2 | e] w3]; reflexivity.
Qed.

Lemma length_float32_bytes (data : list float32) :
  length (flat_map float32_bytes data) = (4 * length data)%nat.
Proof.
  induction data as [|[[[a b] c] d] data IH]; simpl; [reflexivity | lia].
Qed.

Lemma reshape_data data shape arr :
  reshape data shape = Ok arr → nd_data arr = data.
Proof.
  unfold reshape. intros H.
  case_bool_decide; [discriminate|].
  destruct (known_size shape 1) as [s_known|]; [|discriminate].
  unfold new_array in H.
  destruct (List.filter _ shape) as [|d [|d' l]]; try discriminate.
  - destruct (_ =? _); [|discriminate].
    destruct (array_nbytes _ 4); [|discriminate]. inversion H. reflexivity.
  - destruct (_ || _); [discriminate|].
    destruct (array_nbytes _ 4); [|discriminate]. inversion H. reflexivity.
Qed.

Lemma filter_negative_nil (shape : list Z) :
  Forall (fun d => 0 <= d) shape →
  List.filter (fun d => d <? 0) shape = [].
Proof.
  induction 1 as [|d shape Hd _ IH]; simpl; [auto|].
  destruct (Z.ltb_spec d 0); [lia | exact IH].
Qed.

Lemma product_cons d shape : product (d :: shape) = d * product shape.
Proof. reflexivity. Qed.

Lemma product_nonneg shape : Forall (fun d => 0 <= d) shape → 0 <= product shape.
Proof.
  induction 1 as [|d shape Hd _ IH]; [cbn; lia|].
  rewrite product_cons. lia.
Qed.

(** The running product of a shape without a negative entry: every product
    of a prefix stays within [npy_intp], and the last one is the result. *)
Lemma known_size_spec shape s v :
  Forall (fun d => 0 <= d) shape → 0 <= s →
  known_size shape s = Some v ↔
  (∀ k : nat, (0 < k ≤ length shape)%nat →
              s * product (take k shape) <= NPY_MAX_INTP)
  ∧ v = s * product shape.
Proof.
  intros Hpos. revert s. induction Hpos as [|d shape Hd _ IH]; intros s Hs.
  - cbn [known_size length]. split.
    + intros [= <-]. split; [intros k Hk; lia | cbn; lia].
    + intros [_ ->]. f_equal. cbn. lia.
  - cbn [known_size]. destruct (Z.ltb_spec d 0); [lia|].
    destruct (Z.leb_spec (s * d) NPY_MAX_INTP) as [Hle | Hgt].
    + rewrite IH by lia. rewrite product_cons. split.
      * intros [Hk ->]. split; [|lia]. intros [|k] Hlen; [lia|].
        cbn [take]. rewrite product_cons. destruct k as [|k].
        -- rewrite take_0. cbn. lia.
        -- specialize (Hk (S k)). cbn [length] in Hlen.
           rewrite Z.mul_assoc. apply Hk. lia.
      * intros [Hk ->]. split; [|lia]. intros k Hlen.
        specialize (Hk (S k)). cbn [take length] in Hk.
        rewrite product_cons, Z.mul_assoc in Hk. apply Hk. lia.
    + split; [discriminate|]. intros [Hk _]. exfalso.
      specialize (Hk 1%nat). cbn [take length] in Hk. rewrite take_0 in Hk.
      rewrite product_cons in Hk. cbn in Hk. lia.
Qed.

(** For a shape of positive entries only the full product matters. *)
Lemma known_size_positive shape s :
  Forall (fun d => 0 < d) shape → 0 < s →
  s * product shape <= NPY_MAX_INTP →
  known_size shape s = Some (s * product shape).
Proof.
  intros Hpos. revert s. induction Hpos as [|d shape Hd Hrest IH]; intros s Hs Hle.
  - cbn. f_equal. lia.
  - cbn [known_size]. rewrite product_cons in *.
    assert (0 < product shape).
    { clear -Hrest. induction Hrest as [|d shape Hd _ IH]; [cbn; lia|].
      rewrite product_cons. lia. }
    destruct (Z.ltb_spec d 0); [lia|].
    destruct (Z.leb_spec (s * d) NPY_MAX_INTP) as [Hok | Hgt]; [|nia].
    rewrite IH by nia. f_equal. lia.
Qed.

(** With positive entries, [array_nbytes] is the plain product. *)
Lemma array_nbytes_positive shape s v :
  Forall (fun d => 0 < d) shape → 0 < s <= NPY_MAX_INTP →
  array_nbytes shape s = Some v ↔
  s * product shape <= NPY_MAX_INTP ∧ v = s * product shape.
Proof.
  intros Hpos. revert s. induction Hpos as [|d shape Hd Hrest IH]; intros s Hs.
  - cbn. split; [intros [= <-]; lia | intros [_ ->]; f_equal; lia].
  - cbn [array_nbytes]. rewrite product_cons.
    assert (0 < product shape).
    { clear -Hrest. induction Hrest as [|d shape Hd _ IH]; [cbn; lia|].
      rewrite product_cons. lia. }
    destruct (Z.eqb_spec d 0); [lia|].
    destruct (Z.leb_spec (s * d) NPY_MAX_INTP) as [Hok | Hgt].
    + rewrite IH by nia. rewrite !Z.mul_assoc. reflexivity.
    + split; [discriminate|]. intros [Hle _]. nia.
Qed.

(** [reshape] on a shape without a negative entry. *)
Lemma reshape_exact data shape :
  Forall (fun d => 0 <= d) shape →
  reshape data shape
  = if bool_decide (NPY_MAXDIMS < length shape)%nat then Raise ValueError
    else match known_size shape 1 with
         | Some s_known =>
             if Z.of_nat (length data) =? s_known
             then new_array data shape
             else Raise ValueError
         | None => Raise ValueError
         end.
Proof.
  intros Hpos. unfold reshape. rewrite (filter_negative_nil shape Hpos).
  reflexivity.
Qed.

(** An array whose shape has no negative entry holds as many elements as
    the product of its shape. *)
Lemma reshape_size data shape arr :
  Forall (fun d => 0 <= d) shape →
  reshape data shape = Ok arr →
  Z.of_nat (length data) = product shape.
Proof.
  intros Hpos. rewrite (reshape_exact _ _ Hpos).
  case_bool_decide; [discriminate|].
  destruct (known_size shape 1) as [v|] eqn:Hv; [|discriminate].
  apply (known_size_spec _ _ _ Hpos) in Hv as [_ ->]; [|lia].
  destruct (Z.eqb_spec (Z.of_nat (length data)) (1 * product shape));
    [intros _; lia | discriminate].
Qed.

Lemma new_array_raise data shape e :
  new_array data shape = Raise e → e = ValueError.
Proof.
  unfold new_array. destruct (array_nbytes shape 4); [discriminate|].
  intros [= <-]. reflexivity.
Qed.

(** A count that differs from the product of the shape is refused. *)
Lemma reshape_mismatch data shape :
  Forall (fun d => 0 <= d) shape →
  Z.of_nat (length data) ≠ product shape →
  reshape data shape = Raise ValueError.
Proof.
  intros Hpos Hne. destruct (reshape data shape) as [arr | e] eqn:E.
  - apply (reshape_size _ _ _ Hpos) in E. contradiction.
  - revert E. rewrite (reshape_exact _ _ Hpos).
    case_bool_decide; [congruence|].
    destruct (known_size shape 1); [|congruence].
    destruct (_ =? _); [|congruence].
    intros He. apply new_array_raise in He as ->. reflexivity.
Qed.

(** [reshape] on a shape of positive entries: at most [NPY_MAXDIMS] of
    them, and as many elements as the data has, no more than four-byte
    items can number. *)
Lemma reshape_positive data shape arr :
  Forall (fun d => 0 < d) shape →
  reshape data shape = Ok arr ↔
  (length shape ≤ NPY_MAXDIMS)%nat
  ∧ 4 * product shape <= NPY_MAX_INTP
  ∧ Z.of_nat (length data) = product shape
  ∧ arr = {| nd_shape := shape; nd_data := data |}.
Proof.
  intros Hpos.
  assert (Hpos' : Forall (fun d => 0 <= d) shape)
    by (eapply Forall_impl; [exact Hpos|]; simpl; intros; lia).
  rewrite (reshape_exact _ _ Hpos'). unfold new_array. split.
  - case_bool_decide as Hn; [discriminate|].
    destruct (known_size shape 1) as [v|] eqn:Hv; [|discriminate].
    apply (known_size_spec _ _ _ Hpos') in Hv as [_ ->]; [|lia].
    destruct (Z.eqb_spec (Z.of_nat (length data)) (1 * product shape));
      [|discriminate].
    destruct (array_nbytes shape 4) as [n|] eqn:Hb; [|discriminate].
    apply (array_nbytes_positive _ _ _ Hpos) in Hb as [Hb _];
      [|unfold NPY_MAX_INTP; lia].
    intros [= <-]. repeat split; lia.
  - intros (Hn & Hb & Hlen & ->).
    rewrite bool_decide_eq_false_2 by lia.
    rewrite (known_size_positive _ 1 Hpos) by lia.
    rewrite (proj2 (Z.eqb_eq _ _)) by lia.
    rewrite (proj2 (array_nbytes_positive shape 4 _ Hpos
                      ltac:(unfold NPY_MAX_INTP; lia))
               (conj Hb eq_refl)).
    reflexivity.
Qed.

Lemma reshape_fits data shape :
  (length shape ≤ NPY_MAXDIMS)%nat →
  Forall (fun d => 0 < d) shape →
  4 * product shape <= NPY_MAX_INTP →
  Z.of_nat (length data) = product shape →
  reshape data shape = Ok {| nd_shape := shape; nd_data := data |}.
Proof.
  intros Hn Hpos Hle Hlen. apply (reshape_positive _ _ _ Hpos). auto.
Qed.

Lemma float32_bytes_from_initializer_ok init data :
  float32_bytes_from_initializer init = Ok data ↔
  (∃ arr, to_array init = Ok arr)
  ∧ data = flat_map float32_bytes (tp_data init).
Proof.
  unfold float32_bytes_from_initializer. rewrite result_bind_ok. split.
  - intros (arr & H1 & H2). inversion H2. split; [eauto|].
    unfold tobytes. unfold to_array in H1.
    rewrite (reshape_data _ _ _ H1). reflexivity.
  - intros [[arr H1] ->]. exists arr. split; [exact H1|].
    unfold mret, result_ret, tobytes. unfold to_array in H1.
    rewrite (reshape_data _ _ _ H1). reflexivity.
Qed.

Lemma entry_for_ok models name shape stage e :
  entry_for models (name, shape, stage) = Ok e ↔
  ∃ pool init,
    models !! stage = Some pool ∧ pool !! name = Some init
    ∧ tp_dims init = shape ∧ (∃ arr, to_array init = Ok arr)
    ∧ e = entry_of name stage init.
Proof.
  unfold entry_for, infer_shape. split.
  - destruct (models !! stage) as [pool|] eqn:Hpool; [|discriminate].
    destruct (pool !! name) as [init|] eqn:Hinit; [|discriminate].
    case_bool_decide as Hs; [discriminate|].
    rewrite result_bind_ok. intros (data & H1 & H2).
    apply float32_bytes_from_initializer_ok in H1 as [Harr ->].
    exists pool, init.
    split; [reflexivity|]. split; [exact Hinit|].
    split; [destruct (decide (tp_dims init = shape)); [auto | contradiction]|].
    split; [exact Harr|].
    inversion H2. unfold entry_of. f_equal.
    rewrite length_float32_bytes, Nat2Z.inj_mul.
    rewrite Z.mul_comm, Z.div_mul; lia.
  - intros (pool & init & -> & -> & Hs & Harr & ->).
    case_bool_decide; [contradiction|].
    rewrite result_bind_ok. eexists. split.
    + apply float32_bytes_from_initializer_ok. split; [exact Harr | reflexivity].
    + unfold mret, result_ret, entry_of. do 2 f_equal.
      rewrite length_float32_bytes, Nat2Z.inj_mul.
      rewrite Z.mul_comm, Z.div_mul; lia.
Qed.

Lemma collect_entries_cons models d order acc :
  collect_entries models (d :: order) acc =
  (e ← entry_for models d; collect_entries models order (acc ++ [e])).
Proof.
  destruct d as [[name shape] stage]. cbn [collect_entries].
  unfold entry_for, mbind, result_bind.
  destruct (models !! stage) as [pool|]; [|reflexivity].
  destruct (pool !! name) as [init|]; [|reflexivity].
  destruct (bool_decide _); [reflexivity|].
  destruct (float32_bytes_from_initializer init); reflexivity.
Qed.

Lemma collect_entries_ok models order acc es :
  collect_entries models order acc = Ok es ↔
  ∃ es', es = acc ++ es'
         ∧ Forall2 (fun d e => entry_for models d = Ok e) order es'.
Proof.
  revert acc. induction order as [|d order IH]; intros acc.
  - simpl. split.
    + intros [= <-]. exists []. rewrite app_nil_r. auto.
    + intros (es' & -> & H). inversion H. rewrite app_nil_r. reflexivity.
  - rewrite collect_entries_cons, result_bind_ok. split.
    + intros (e & He & H). apply IH in H as (es' & -> & H).
      exists (e :: es'). rewrite <- app_assoc. split; [reflexivity|].
      constructor; assumption.
    + intros (es' & -> & H). inversion H as [|? e ? es'' He Hrest]; subst.
      exists e. split; [exact He|]. apply IH. exists es''.
      rewrite <- app_assoc. auto.
Qed.

(** The loop stops at the first catalog entry its body rejects. *)
Lemma collect_entries_raise models pre d post acc es x :
  Forall2 (fun d e => entry_for models d = Ok e) pre es →
  entry_for models d = Raise x →
  collect_entries models (pre ++ d :: post) acc = Raise x.
Proof.
  intros Hpre Hd. revert acc.
  induction Hpre as [|d0 e0 pre es He _ IH]; intros acc.
  - simpl app. rewrite collect_entries_cons, Hd. reflexivity.
  - simpl app. rewrite collect_entries_cons, He. apply IH.
Qed.

(** ** Writing the blob *)

Lemma bind_step {A B} (m : M A) (k : A → M B) w a w1 :
  m w = (Ok a, w1) → (m ≫= k) w = k a w1.
Proof. intros H. unfold mbind, M_bind. rewrite H. reflexivity. Qed.

Lemma put_id f c w : files w !! f = Some c → put f c w = w.
Proof.
  intros H. destruct w as [d fs o]. unfold put, set_files. simpl in *.
  f_equal. apply insert_id, H.
Qed.

Lemma lookup_put f c w : files (put f c w) !! f = Some c.
Proof. apply lookup_insert_eq. Qed.


Lemma write_packed_spec f fmt x w old :
  files w !! f = Some (Binary old) → fits (format_size fmt) x →
  write_packed f fmt x w
  = (Ok tt, put f (Binary (old ++ le_bytes (format_size fmt) x)) w).
Proof. intros Hf Hx. apply (write_packed_ok _ _ _ _ _ _ Hf). auto. Qed.

Lemma write_dims_ok f shape w w' old :
  files w !! f = Some (Binary old) →
  write_dims f shape w = (Ok tt, w') ↔
  Forall (fits 4) shape
  ∧ w' = put f (Binary (old ++ flat_map (le_bytes 4) shape)) w.
Proof.
  revert w w' old. induction shape as [|dim shape IH]; intros w w' old Hf.
  - simpl. rewrite app_nil_r, (put_id _ _ _ Hf).
    unfold mret, M_ret. split; [intros [= <-] | intros [_ ->]]; auto.
  - cbn [write_dims flat_map]. rewrite bind_ok. split.
    + intros ([] & w1 & H1 & H2).
      apply (write_packed_ok _ _ _ _ _ _ Hf) in H1 as [Hfit ->].
      apply (IH _ _ _ (lookup_put _ _ _)) in H2 as [Hall ->].
      rewrite put_put, <- app_assoc. auto.
    + intros [Hall ->]. inversion Hall as [|? ? Hfit Hall']; subst.
      eexists tt, _. split.
      * apply (write_packed_spec _ LE_I _ _ _ Hf Hfit).
      * apply (IH _ _ _ (lookup_put _ _ _)).
        rewrite put_put, <- app_assoc. auto.
Qed.

Lemma encode_table_cons r rs :
  encode_table (r :: rs) = encode_record r ++ encode_table rs.
Proof. reflexivity. Qed.

Lemma encode_record_of name_bytes entry offset :
  encode_record (record_of name_bytes entry offset) =
  le_bytes 2 (Z.of_nat (length name_bytes)) ++ name_bytes
    ++ le_bytes 1 (Z.of_nat (length (e_shape entry)))
    ++ flat_map (le_bytes 4) (e_shape entry)
    ++ le_bytes 4 offset ++ le_bytes 4 (e_len entry).
Proof. reflexivity. Qed.

Lemma write_descriptors_ok f entries offset w w' old :
  files w !! f = Some (Binary old) →
  write_descriptors f entries offset w = (Ok tt, w') ↔
  ∃ rs, table_of entries offset = Ok rs ∧ Forall record_wf rs
        ∧ w' = put f (Binary (old ++ encode_table rs)) w.
Proof.
  revert offset w w' old.
  induction entries as [|entry entries IH]; intros offset w w' old Hf.
  - simpl. unfold mret, M_ret. split.
    + intros [= <-]. exists []. simpl.
      rewrite app_nil_r, (put_id _ _ _ Hf). auto.
    + intros (rs & [= <-] & _ & ->). simpl.
      rewrite app_nil_r, (put_id _ _ _ Hf). reflexivity.
  - cbn [write_descriptors table_of]. rewrite bind_ok. split.
    + intros (name_bytes & w0 & H0 & H).
      apply lift_ok in H0 as [Hname ->].
      apply bind_ok in H as ([] & w1 & H1 & H).
      apply (write_packed_ok _ _ _ _ _ _ Hf) in H1 as [Hfit1 ->].
      apply bind_ok in H as ([] & w2 & H2 & H).
      rewrite (fwrite_spec _ _ _ _ (lookup_put _ _ _)) in H2.
      inversion H2; subst w2; clear H2. rewrite put_put in H.
      apply bind_ok in H as ([] & w3 & H3 & H).
      apply (write_packed_ok _ _ _ _ _ _ (lookup_put _ _ _)) in H3 as [Hfit3 ->].
      rewrite put_put in H.
      apply bind_ok in H as ([] & w4 & H4 & H).
      apply (write_dims_ok _ _ _ _ _ (lookup_put _ _ _)) in H4 as [Hfit4 ->].
      rewrite put_put in H.
      apply bind_ok in H as ([] & w5 & H5 & H).
      apply (write_packed_ok _ _ _ _ _ _ (lookup_put _ _ _)) in H5 as [Hfit5 ->].
      rewrite put_put in H.
      apply bind_ok in H as ([] & w6 & H6 & H).
      apply (write_packed_ok _ _ _ _ _ _ (lookup_put _ _ _)) in H6 as [Hfit6 ->].
      rewrite put_put in H.
      apply (IH _ _ _ _ (lookup_put _ _ _)) in H as (rs & Hrs & Hwf & ->).
      rewrite put_put.
      exists (record_of name_bytes entry offset :: rs).
      rewrite Hname, Hrs. split; [reflexivity|]. split.
      * constructor; [|exact Hwf]. unfold record_wf, record_of.
        cbn [r_name_length r_name_bytes r_dim_count r_dims r_offset r_length].
        repeat split; try apply Hfit1; try apply Hfit3; try apply Hfit5;
          try apply Hfit6; exact Hfit4.
      * rewrite encode_table_cons, encode_record_of. cbn [format_size].
        do 2 f_equal. rewrite <- !app_assoc. reflexivity.
    + intros (rs & Hrs & Hwf & ->).
      apply result_bind_ok in Hrs as (name_bytes & Hname & Hrs).
      apply result_bind_ok in Hrs as (rs' & Hrs' & [= <-]).
      inversion Hwf as [|? ? Hr Hwf']; subst.
      destruct Hr as (_ & Hfit1 & _ & Hfit3 & Hfit4 & Hfit5 & Hfit6).
      cbn [record_of r_name_length r_name_bytes r_dim_count r_dims r_offset
             r_length] in *.
      exists name_bytes, w. split; [apply lift_ok; auto|].
      rewrite (bind_step _ _ _ _ _ (write_packed_spec _ LE_H _ _ _ Hf Hfit1)).
      rewrite (bind_step _ _ _ _ _ (fwrite_spec _ _ _ _ (lookup_put _ _ _))).
      rewrite put_put.
      rewrite (bind_step _ _ _ _ _
                 (write_packed_spec _ LE_B _ _ _ (lookup_put _ _ _) Hfit3)).
      rewrite put_put.
      erewrite bind_step;
        [| apply (write_dims_ok _ _ _ _ _ (lookup_put _ _ _)); eauto].
      rewrite put_put.
      rewrite (bind_step _ _ _ _ _
                 (write_packed_spec _ LE_I _ _ _ (lookup_put _ _ _) Hfit5)).
      rewrite put_put.
      rewrite (bind_step _ _ _ _ _
                 (write_packed_spec _ LE_I _ _ _ (lookup_put _ _ _) Hfit6)).
      rewrite put_put.
      apply (IH _ _ _ _ (lookup_put _ _ _)). exists rs'.
      split; [exact Hrs'|]. split; [exact Hwf'|].
      rewrite put_put.
      rewrite encode_table_cons, encode_record_of. cbn [format_size].
      do 2 f_equal. rewrite <- !app_assoc. reflexivity.
Qed.

Lemma write_payloads_spec f entries w old :
  files w !! f = Some (Binary old) →
  write_payloads f entries w
  = (Ok tt, put f (Binary (old ++ concat (map e_bytes entries))) w).
Proof.
  revert w old. induction entries as [|entry entries IH]; intros w old Hf.
  - simpl. rewrite app_nil_r, (put_id _ _ _ Hf). reflexivity.
  - cbn [write_payloads map concat].
    rewrite (bind_step _ _ _ _ _ (fwrite_spec _ _ _ _ Hf)).
    rewrite (IH _ _ (lookup_put _ _ _)), put_put, <- app_assoc. reflexivity.
Qed.

Lemma open_w_ok p empty w h w' :
  open_w p empty w = (Ok h, w') ↔
  (p ∉ dirs w) ∧ (parent p ∈ dirs w) ∧ h = p ∧ w' = put p empty w.
Proof.
  unfold open_w. case_bool_decide as H1.
  - split; [discriminate | intros [? _]; contradiction].
  - case_bool_decide as H2.
    + split; [intros [= <- <-]; auto | intros (_ & _ & -> & ->); reflexivity].
    + split; [discriminate | intros (_ & ? & _); contradiction].
Qed.

Lemma json_dump_spec doc f w old :
  files w !! f = Some (Text old) →
  json_dump doc f w = (Ok tt, put f (Text (old ++ [doc])) w).
Proof. intros H. unfold json_dump. rewrite H. reflexivity. Qed.

Lemma fits_header_constants :
  fits 4 VERSION ∧ fits 1 ENDIANNESS ∧ fits 1 DTYPE_F32.
Proof. unfold fits, VERSION, ENDIANNESS, DTYPE_F32. simpl. lia. Qed.

Lemma emit_ok file entries w w' :
  emit file entries w = (Ok tt, w') ↔
  (BLOB_PATH file ∉ dirs w) ∧ (parent (BLOB_PATH file) ∈ dirs w)
  ∧ (MANIFEST_PATH file ∉ dirs w) ∧ (parent (MANIFEST_PATH file) ∈ dirs w)
  ∧ fits 4 (Z.of_nat (length entries))
  ∧ ∃ rs, table_of entries 0 = Ok rs ∧ Forall record_wf rs
          ∧ w' = emitted file rs entries w.
Proof.
  destruct fits_header_constants as (Hv & He & Hd).
  unfold emit. rewrite bind_ok. split.
  - intros (blob & w0 & H0 & H).
    apply open_w_ok in H0 as (Hb1 & Hb2 & -> & ->).
    apply bind_ok in H as ([] & w1 & H1 & H).
    rewrite (fwrite_spec _ _ _ _ (lookup_put _ _ _)) in H1.
    inversion H1; subst w1; clear H1. rewrite put_put in H.
    apply bind_ok in H as ([] & w2 & H2 & H).
    apply (write_packed_ok _ _ _ _ _ _ (lookup_put _ _ _)) in H2 as [_ ->].
    rewrite put_put in H.
    apply bind_ok in H as ([] & w3 & H3 & H).
    apply (write_packed_ok _ _ _ _ _ _ (lookup_put _ _ _)) in H3 as [_ ->].
    rewrite put_put in H.
    apply bind_ok in H as ([] & w4 & H4 & H).
    apply (write_packed_ok _ _ _ _ _ _ (lookup_put _ _ _)) in H4 as [_ ->].
    rewrite put_put in H.
    apply bind_ok in H as ([] & w5 & H5 & H).
    apply (write_packed_ok _ _ _ _ _ _ (lookup_put _ _ _)) in H5 as [Hn ->].
    rewrite put_put in H.
    apply bind_ok in H as ([] & w6 & H6 & H).
    apply (write_descriptors_ok _ _ _ _ _ _ (lookup_put _ _ _)) in H6
      as (rs & Hrs & Hwf & ->).
    rewrite put_put in H.
    apply bind_ok in H as ([] & w7 & H7 & H).
    rewrite (write_payloads_spec _ _ _ _ (lookup_put _ _ _)) in H7.
    inversion H7; subst w7; clear H7. rewrite put_put in H.
    apply bind_ok in H as (mf & w8 & H8 & H).
    apply open_w_ok in H8 as (Hm1 & Hm2 & -> & ->).
    apply bind_ok in H as ([] & w9 & H9 & H).
    rewrite (json_dump_spec _ _ _ _ (lookup_put _ _ _)) in H9.
    inversion H9; subst w9; clear H9. rewrite put_put in H.
    unfold print in H. inversion H; subst w'; clear H.
    repeat (split; [assumption|]).
    exists rs. repeat (split; [assumption|]).
    unfold emitted, blob_bytes, encode_header, header_of.
    cbn [magic version endianness dtype tensor_count format_size app].
    rewrite <- !app_assoc. reflexivity.
  - intros (Hb1 & Hb2 & Hm1 & Hm2 & Hn & rs & Hrs & Hwf & ->).
    exists (BLOB_PATH file), (put (BLOB_PATH file) (Binary []) w).
    split; [apply open_w_ok; auto|].
    rewrite (bind_step _ _ _ _ _ (fwrite_spec _ _ _ _ (lookup_put _ _ _))).
    rewrite put_put.
    rewrite (bind_step _ _ _ _ _
               (write_packed_spec _ LE_I _ _ _ (lookup_put _ _ _) Hv)).
    rewrite put_put.
    rewrite (bind_step _ _ _ _ _
               (write_packed_spec _ LE_B _ _ _ (lookup_put _ _ _) He)).
    rewrite put_put.
    rewrite (bind_step _ _ _ _ _
               (write_packed_spec _ LE_B _ _ _ (lookup_put _ _ _) Hd)).
    rewrite put_put.
    rewrite (bind_step _ _ _ _ _
               (write_packed_spec _ LE_I _ _ _ (lookup_put _ _ _) Hn)).
    rewrite put_put.
    erewrite bind_step;
      [| apply (write_descriptors_ok _ _ _ _ _ _ (lookup_put _ _ _)); eauto].
    rewrite put_put.
    rewrite (bind_step _ _ _ _ _
               (write_payloads_spec _ _ _ _ (lookup_put _ _ _))).
    rewrite put_put.
    erewrite bind_step; [| apply open_w_ok; eauto].
    rewrite (bind_step _ _ _ _ _ (json_dump_spec _ _ _ _ (lookup_put _ _ _))).
    rewrite put_put.
    unfold print, emitted, blob_bytes, encode_header, header_of.
    cbn [magic version endianness dtype tensor_count format_size app].
    rewrite <- !app_assoc. reflexivity.
Qed.

(** ** Loading the models *)

Lemma loads_model w p model :
  files w !! p = Some (Onnx model) → loads w p model.
Proof. intros H. exists (Onnx model). auto. Qed.

Lemma load_initializers_ok p w d w' :
  load_initializers p w = (Ok d, w') ↔
  ∃ model, loads w p model ∧ d = initializers model ∧ w' = w.
Proof.
  unfold load_initializers. rewrite bind_ok. unfold onnx_load, loads. split.
  - intros (model & w1 & H1 & H2).
    destruct (files w !! p) as [c|] eqn:Hf; [|discriminate].
    injection H1 as Hc <-. injection H2 as <- <-.
    exists model. split; [exists c; auto | auto].
  - intros (model & (c & Hf & Hc) & -> & ->). exists model, w.
    rewrite Hf, Hc. auto.
Qed.

Lemma setup_ok file w models w1 :
  setup file w = (Ok models, w1) ↔
  existsb (fun q => bool_decide (is_Some (files w !! q)))
          (ancestors (ASSETS_DIR file)) = false
  ∧ ∃ model_1 model_2,
      loads w (MODELS_DIR file ++ ["model_1.onnx"%string]) model_1
      ∧ loads w (MODELS_DIR file ++ ["model_2.onnx"%string]) model_2
      ∧ models = models_of model_1 model_2
      ∧ w1 = set_dirs (dirs w ∪ list_to_set (ancestors (ASSETS_DIR file))) w.
Proof.
  unfold setup. rewrite bind_ok. split.
  - intros ([] & w0 & H0 & H). unfold mkdir in H0.
    destruct (existsb _ _) eqn:E; [discriminate|]. inversion H0; subst w0.
    split; [reflexivity|].
    apply bind_ok in H as (s1 & w2 & H1 & H).
    apply load_initializers_ok in H1 as (m1 & Hm1 & -> & ->).
    apply bind_ok in H as (s2 & w3 & H2 & H).
    apply load_initializers_ok in H2 as (m2 & Hm2 & -> & ->).
    inversion H. exists m1, m2. auto.
  - intros (E & m1 & m2 & Hm1 & Hm2 & -> & ->).
    eexists tt, _. split; [unfold mkdir; rewrite E; reflexivity|].
    erewrite bind_step; [| apply load_initializers_ok; exists m1; eauto].
    erewrite bind_step; [| apply load_initializers_ok; exists m2; eauto].
    reflexivity.
Qed.

Lemma setup_files file w models w1 :
  setup file w = (Ok models, w1) → files w1 = files w ∧ stdout w1 = stdout w.
Proof.
  intros H. apply setup_ok in H as (_ & m1 & m2 & _ & _ & _ & ->). auto.
Qed.

Lemma setup_raise_files file w e w1 :
  setup file w = (Raise e, w1) → files w1 = files w.
Proof.
  unfold setup, mbind, M_bind, mkdir, load_initializers, onnx_load, mbind,
    M_bind, mret, M_ret.
  destruct (existsb _ _); [intros [= _ <-]; reflexivity|].
  simpl.
  destruct (_ !! (MODELS_DIR file ++ ["model_1.onnx"%string])) as [c1|];
    [|intros [= _ <-]; reflexivity].
  destruct (parse_model c1); [|intros [= _ <-]; reflexivity].
  destruct (_ !! (MODELS_DIR file ++ ["model_2.onnx"%string])) as [c2|];
    [|intros [= _ <-]; reflexivity].
  destruct (parse_model c2); intros [= _ <-]; reflexivity.
Qed.

(** ** Paths *)

Lemma parent_app p c : parent (p ++ [c]) = p.
Proof. apply removelast_last. Qed.

Lemma ancestors_self (p : Path) : p ∈ ancestors p.
Proof.
  induction p as [|c p IH]; simpl.
  - apply list_elem_of_here.
  - apply list_elem_of_further. apply list_elem_of_fmap. eauto.
Qed.

Lemma ancestors_length (p q : Path) :
  q ∈ ancestors p → (length q ≤ length p)%nat.
Proof.
  revert q. induction p as [|c p IH]; intros q; simpl.
  - intros H. apply list_elem_of_singleton in H as ->. reflexivity.
  - intros H. apply elem_of_cons in H as [-> | H]; [simpl; lia|].
    apply list_elem_of_fmap in H as (q' & -> & H). simpl.
    apply IH in H. lia.
Qed.

Lemma blob_manifest_ne file : BLOB_PATH file ≠ MANIFEST_PATH file.
Proof.
  unfold BLOB_PATH, MANIFEST_PATH. intros H.
  apply app_inv_head in H. discriminate.
Qed.

Lemma child_not_ancestor (p : Path) c : p ++ [c] ∉ ancestors p.
Proof.
  intros H. apply ancestors_length in H. rewrite length_app in H.
  simpl in H. lia.
Qed.

(** ** A successful run *)

Lemma main_with_ok file order w w' :
  main_with file order w = (Ok tt, w') ↔
  ∃ models w1 entries rs,
    setup file w = (Ok models, w1)
    ∧ Forall2 (fun d e => entry_for models d = Ok e) order entries
    ∧ (BLOB_PATH file ∉ dirs w) ∧ (MANIFEST_PATH file ∉ dirs w)
    ∧ fits 4 (Z.of_nat (length entries))
    ∧ table_of entries 0 = Ok rs ∧ Forall record_wf rs
    ∧ w' = emitted file rs entries w1.
Proof.
  rewrite main_with_phases, bind_ok.
  assert (Hdirs : ∀ models w1, setup file w = (Ok models, w1) →
            (parent (BLOB_PATH file) ∈ dirs w1)
            ∧ (parent (MANIFEST_PATH file) ∈ dirs w1)
            ∧ (BLOB_PATH file ∉ dirs w1 ↔ BLOB_PATH file ∉ dirs w)
            ∧ (MANIFEST_PATH file ∉ dirs w1 ↔ MANIFEST_PATH file ∉ dirs w)).
  { intros models w1 H. apply setup_ok in H as (_ & m1 & m2 & _ & _ & _ & ->).
    unfold BLOB_PATH, MANIFEST_PATH. rewrite !parent_app. simpl.
    pose proof (ancestors_self (ASSETS_DIR file)) as Hs.
    pose proof (child_not_ancestor (ASSETS_DIR file) "dtln_weights_v1.bin") as Hb.
    pose proof (child_not_ancestor (ASSETS_DIR file)
                  "dtln_weights_v1.manifest.json") as Hm.
    rewrite !elem_of_union, !elem_of_list_to_set. tauto. }
  split.
  - intros (models & w1 & Hsetup & H).
    apply bind_ok in H as (entries & w2 & Hc & H).
    apply lift_ok in Hc as [Hc ->].
    apply collect_entries_ok in Hc as (es & -> & Hall). simpl in H.
    apply emit_ok in H as (Hb1 & _ & Hm1 & _ & Hn & rs & Hrs & Hwf & ->).
    destruct (Hdirs _ _ Hsetup) as (_ & _ & Hb & Hm).
    exists models, w1, es, rs. tauto.
  - intros (models & w1 & entries & rs & Hsetup & Hall & Hb1 & Hm1 & Hn
            & Hrs & Hwf & ->).
    destruct (Hdirs _ _ Hsetup) as (Hb2 & Hm2 & Hb & Hm).
    exists models, w1. split; [exact Hsetup|].
    apply bind_ok. exists entries, w1. split.
    + apply lift_ok. split; [|reflexivity].
      apply collect_entries_ok. exists entries. auto.
    + apply emit_ok. split; [tauto|]. split; [exact Hb2|].
      split; [tauto|]. split; [exact Hm2|]. split; [exact Hn|].
      exists rs. auto.
Qed.

Lemma emitted_blob file rs entries w :
  files (emitted file rs entries w) !! BLOB_PATH file
  = Some (Binary (blob_bytes rs entries)).
Proof.
  unfold emitted. simpl.
  rewrite lookup_insert_ne by (apply not_eq_sym, blob_manifest_ne).
  apply lookup_insert_eq.
Qed.

Lemma emitted_manifest file rs entries w :
  files (emitted file rs entries w) !! MANIFEST_PATH file
  = Some (Text [manifest_of entries]).
Proof. unfold emitted. simpl. apply lookup_insert_eq. Qed.

(** The entries the loop produces, against the catalog. *)
Lemma entries_catalog models order entries :
  Forall2 (fun d e => entry_for models d = Ok e) order entries →
  Forall2 (fun (d : TensorDescriptor) e =>
             e_name e = d.1.1 ∧ e_shape e = d.1.2 ∧ e_stage e = d.2
             ∧ adapter_lookup models d.2 d.1.1 = Some (d.1.2, e_bytes e)
             ∧ Z.of_nat (length (e_bytes e)) = e_len e * 4
             ∧ (Forall (fun n => 0 <= n) d.1.2 → e_len e = product d.1.2))
          order entries.
Proof.
  intros H. eapply Forall2_impl; [exact H|].
  intros [[name shape] stage] e He. simpl.
  apply entry_for_ok in He as (pool & init & Hpool & Hinit & Hs & [arr Harr] & ->).
  unfold entry_of, adapter_lookup, infer_shape. simpl.
  rewrite Hpool. simpl. rewrite Hinit. simpl. rewrite Hs.
  repeat split; try reflexivity.
  - rewrite length_float32_bytes. lia.
  - intros Hpos. unfold to_array in Harr. rewrite Hs in Harr.
    apply (reshape_size _ _ _ Hpos Harr).
Qed.

(** The descriptor table, against the entries. *)
Lemma table_of_entries entries offset rs :
  table_of entries offset = Ok rs →
  Forall (fun e => Z.of_nat (length (e_bytes e)) = e_len e * 4) entries →
  Forall2 (fun e r => encode_utf8 (e_name e) = Ok (r_name_bytes r)
                      ∧ r_dims r = e_shape e ∧ r_length r = e_len e)
          entries rs
  ∧ contiguous offset rs.
Proof.
  revert offset rs. induction entries as [|e entries IH]; intros offset rs H Hlen.
  - inversion H. split; [constructor | exact I].
  - cbn [table_of] in H.
    apply result_bind_ok in H as (nb & Hnb & H).
    apply result_bind_ok in H as (rs' & Hrs' & [= <-]).
    inversion Hlen as [|? ? He Hlen']; subst.
    destruct (IH _ _ Hrs' Hlen') as [IH1 IH2]. split.
    + constructor; [|exact IH1]. unfold record_of. simpl. auto.
    + simpl. split; [reflexivity|]. rewrite <- He. exact IH2.
Qed.

(** The slice a descriptor points at is the payload of its entry. *)
Lemma payload_slice_entries entries rs pre :
  Forall2 (fun e r => r_length r = e_len e
                      ∧ Z.of_nat (length (e_bytes e)) = e_len e * 4)
          entries rs →
  contiguous (Z.of_nat (length pre)) rs →
  ∀ (i : nat) e r, entries !! i = Some e → rs !! i = Some r →
    payload_slice r (pre ++ concat (map e_bytes entries)) = e_bytes e.
Proof.
  intros H. revert pre.
  induction H as [|e r entries rs [Hlen Hbytes] _ IH]; intros pre Hc i e' r' He Hr.
  - rewrite lookup_nil in He. discriminate.
  - destruct Hc as [Hoff Hc]. destruct i as [|i]; simpl in He, Hr.
    + inversion He; inversion Hr; subst e' r'. unfold payload_slice.
      rewrite Hoff, Nat2Z.id, drop_app_length. cbn [map concat].
      rewrite Hlen, <- Hbytes, Nat2Z.id, take_app_length. reflexivity.
    + cbn [map concat]. rewrite app_assoc. apply (IH _) with (i := i); auto.
      rewrite length_app, Nat2Z.inj_add, Hbytes, <- Hlen. exact Hc.
Qed.

(** What a successful run produced, entry by entry. *)
Lemma run_facts file order w w' :
  main_with file order w = (Ok tt, w') →
  ∃ models w1 entries rs,
    setup file w = (Ok models, w1)
    ∧ collect_entries models order [] = Ok entries
    ∧ files w' !! BLOB_PATH file = Some (Binary (blob_bytes rs entries))
    ∧ files w' !! MANIFEST_PATH file = Some (Text [manifest_of entries])
    ∧ length entries = length order ∧ length rs = length order
    ∧ fits 4 (Z.of_nat (length order))
    ∧ Forall record_wf rs
    ∧ contiguous 0 rs
    ∧ Forall2 (fun e r => r_length r = e_len e
                          ∧ Z.of_nat (length (e_bytes e)) = e_len e * 4)
              entries rs
    ∧ ∀ (i : nat) d, order !! i = Some d →
        ∃ e r, entries !! i = Some e ∧ rs !! i = Some r
          ∧ e_name e = d.1.1 ∧ e_shape e = d.1.2 ∧ e_stage e = d.2
          ∧ adapter_lookup models d.2 d.1.1 = Some (d.1.2, e_bytes e)
          ∧ Z.of_nat (length (e_bytes e)) = e_len e * 4
          ∧ e_len e = product d.1.2
          ∧ encode_utf8 d.1.1 = Ok (r_name_bytes r)
          ∧ r_dims r = d.1.2 ∧ r_length r = e_len e
          ∧ payload_slice r (concat (map e_bytes entries)) = e_bytes e.
Proof.
  intros H. apply main_with_ok in H
    as (models & w1 & entries & rs & Hsetup & Hall & _ & _ & Hn & Hrs & Hwf & ->).
  pose proof (entries_catalog _ _ _ Hall) as Hcat.
  assert (Hlen : Forall (fun e => Z.of_nat (length (e_bytes e)) = e_len e * 4)
                   entries).
  { apply Forall_forall. intros e He.
    apply list_elem_of_lookup in He as [i He].
    destruct (Forall2_lookup_r _ _ _ _ _ Hcat He) as (d & _ & Hd). tauto. }
  destruct (table_of_entries _ _ _ Hrs Hlen) as [Htab Hcont].
  pose proof (Forall2_length _ _ _ Hall) as Hl1.
  pose proof (Forall2_length _ _ _ Htab) as Hl2.
  exists models, w1, entries, rs.
  split; [exact Hsetup|].
  split; [apply collect_entries_ok; exists entries; auto|].
  split; [apply emitted_blob|]. split; [apply emitted_manifest|].
  split; [auto|]. split; [congruence|]. split; [rewrite Hl1; exact Hn|].
  split; [exact Hwf|]. split; [exact Hcont|].
  assert (Hsz : Forall2 (fun e r => r_length r = e_len e
                   ∧ Z.of_nat (length (e_bytes e)) = e_len e * 4) entries rs).
  { clear -Htab Hlen. induction Htab as [|e0 r0 es0 rs0 (_ & _ & H0) _ IH].
    - constructor.
    - inversion Hlen; subst. constructor; auto. }
  split; [exact Hsz|].
  intros i d Hd.
  destruct (Forall2_lookup_l _ _ _ _ _ Hcat Hd)
    as (e & He & Hn1 & Hs1 & Hst & Had & Hb & Hprod).
  destruct (Forall2_lookup_l _ _ _ _ _ Htab He) as (r & Hr & Hnb & Hdims & Hrl).
  exists e, r. rewrite <- Hn1 at 2. rewrite Hdims, Hs1.
  repeat (split; [first [assumption | reflexivity | congruence]|]).
  assert (Hfit : Forall (fits 4) d.1.2).
  { rewrite <- Hs1, <- Hdims. apply (Forall_lookup_1 _ _ _ _ Hwf Hr). }
  split.
  { apply Hprod. eapply Forall_impl; [exact Hfit|]. unfold fits. intros; lia. }
  split; [congruence|]. split; [reflexivity|]. split; [exact Hrl|].
  apply (payload_slice_entries entries rs []) with (i := i); auto.
Qed.

(** ** Example runs *)

(** A run is determined by the result it returns. *)
Lemma ran {A} (m : M A) w r : fst (m w) = r → m w = (r, snd (m w)).
Proof. destruct (m w) as [r' w1]. simpl. intros ->. reflexivity. Qed.

Ltac evaluate_run :=
  unfold Examples.after;
  match goal with
  | |- ?m ?w = (?r, snd (?m ?w)) => apply (ran m w r)
  end;
  vm_compute; reflexivity.

(** ** The blob layout *)

Lemma payload_total entries rs :
  Forall2 (fun e r => r_length r = e_len e
                      ∧ Z.of_nat (length (e_bytes e)) = e_len e * 4)
          entries rs →
  Z.of_nat (length (concat (map e_bytes entries)))
  = sum_Z (map (fun r => r_length r * 4) rs).
Proof.
  induction 1 as [|e r entries rs [H1 H2] _ IH]; [reflexivity|].
  cbn [map concat sum_Z fold_right]. fold (sum_Z (map (fun r => r_length r * 4) rs)).
  rewrite length_app, Nat2Z.inj_add, IH, H2, H1. reflexivity.
Qed.

(** C1: the blob of a successful run starts with the magic "DTLN", the
    version on 32 bits, an endianness byte 0, a dtype byte 0 and the tensor
    count on 32 bits, equal to the number of catalog entries, followed by
    one descriptor record per catalog entry, in catalog order: the length
    of the name on 16 bits, the UTF-8 name, the dimension count on 8 bits,
    the dimensions of the entry on 32 bits each, then the payload offset
    and the element count on 32 bits; all fields little-endian and within
    their width. The element count is the product of the dimensions; the
    payload offsets start at 0 and each next one is the previous one plus
    four times the previous element count; the payload section after the
    table is as long as the element counts say, and what lies in it at a
    record's offset is what the models hold for its entry. *)
Theorem blob_layout file order w w' :
  main_with file order w = (Ok tt, w') →
  ∃ rs payload,
    files w' !! BLOB_PATH file
    = Some (Binary (bytes_of_string "DTLN" ++ le_bytes 4 VERSION
                      ++ [x00] ++ [x00]
                      ++ le_bytes 4 (Z.of_nat (length order))
                      ++ flat_map encode_record rs ++ payload))
    ∧ fits 4 VERSION ∧ fits 4 (Z.of_nat (length order))
    ∧ Forall record_wf rs
    ∧ contiguous 0 rs
    ∧ Z.of_nat (length payload) = sum_Z (map (fun r => r_length r * 4) rs)
    ∧ Forall2 (fun (d : TensorDescriptor) r =>
                 encode_utf8 d.1.1 = Ok (r_name_bytes r) ∧ r_dims r = d.1.2
                 ∧ r_length r = product d.1.2
                 ∧ adapter file w d.2 d.1.1
                   = Some (d.1.2, payload_slice r payload))
              order rs.
Proof.
  intros H. apply run_facts in H
    as (models & w1 & entries & rs & Hs & _ & Hblob & _ & Hl1 & Hl2 & Hn & Hwf
        & Hcont & Hsz & Hall).
  exists rs, (concat (map e_bytes entries)).
  split; [|split; [apply fits_header_constants|]; split; [exact Hn|];
           split; [exact Hwf|]; split; [exact Hcont|];
           split; [apply payload_total, Hsz|]].
  - rewrite Hblob. unfold blob_bytes, encode_header, header_of. rewrite Hl1.
    cbn [magic version endianness dtype tensor_count].
    rewrite <- !app_assoc. reflexivity.
  - apply Forall2_same_length_lookup. split; [congruence|].
    intros i d r Hd Hr.
    destruct (Hall _ _ Hd)
      as (e & r0 & _ & Hr0 & _ & _ & _ & Had & _ & Hp & Hnb & Hdims & Hrl & Hsl).
    rewrite Hr in Hr0. injection Hr0 as <-.
    split; [exact Hnb|]. split; [exact Hdims|]. split; [congruence|].
    unfold adapter. rewrite Hs. cbn [fst]. rewrite Hsl. exact Had.
Qed.

Lemma blob_layout_witness :
  ∃ rs payload,
    files (Examples.after Examples.catalog Examples.good)
      !! BLOB_PATH Examples.script
    = Some (Binary (bytes_of_string "DTLN" ++ le_bytes 4 VERSION
                      ++ [x00] ++ [x00]
                      ++ le_bytes 4 (Z.of_nat (length Examples.catalog))
                      ++ flat_map encode_record rs ++ payload))
    ∧ fits 4 VERSION ∧ fits 4 (Z.of_nat (length Examples.catalog))
    ∧ Forall record_wf rs
    ∧ contiguous 0 rs
    ∧ Z.of_nat (length payload) = sum_Z (map (fun r => r_length r * 4) rs)
    ∧ Forall2 (fun (d : TensorDescriptor) r =>
                 encode_utf8 d.1.1 = Ok (r_name_bytes r) ∧ r_dims r = d.1.2
                 ∧ r_length r = product d.1.2
                 ∧ adapter Examples.script Examples.good d.2 d.1.1
                   = Some (d.1.2, payload_slice r payload))
              Examples.catalog rs.
Proof.
  apply (blob_layout Examples.script Examples.catalog Examples.good).
  evaluate_run.
Defined.

(** ** Offsets *)

Lemma contiguous_chained start rs :
  contiguous start rs →
  (∀ r, rs !! 0%nat = Some r → r_offset r = start)
  ∧ ∀ (i : nat) r r', rs !! i = Some r → rs !! S i = Some r' →
      r_offset r' = r_offset r + r_length r * 4.
Proof.
  revert start. induction rs as [|r0 rs IH]; intros start Hc.
  - split; intros; rewrite lookup_nil in *; discriminate.
  - destruct Hc as [Hoff Hc]. destruct (IH _ Hc) as [IH1 IH2]. split.
    + intros r [= <-]. exact Hoff.
    + intros [|i] r r' Hr Hr'; simpl in Hr, Hr'.
      * injection Hr as <-. rewrite (IH1 _ Hr'), Hoff. reflexivity.
      * apply (IH2 i); assumption.
Qed.

Lemma contiguous_later start rs :
  contiguous start rs → Forall (fun r => 0 <= r_length r) rs →
  ∀ (j : nat) rj, rs !! j = Some rj → start <= r_offset rj.
Proof.
  revert start. induction rs as [|r0 rs IH]; intros start Hc Hpos j rj Hj.
  - rewrite lookup_nil in Hj. discriminate.
  - destruct Hc as [Hoff Hc]. apply Forall_cons in Hpos as [H0 Hpos'].
    destruct j as [|j]; simpl in Hj.
    + inversion Hj; subst. lia.
    + pose proof (IH _ Hc Hpos' j rj Hj). lia.
Qed.

Lemma contiguous_ordered start rs :
  contiguous start rs → Forall (fun r => 0 <= r_length r) rs →
  ∀ (i j : nat) ri rj, (i < j)%nat → rs !! i = Some ri → rs !! j = Some rj →
    r_offset ri + r_length ri * 4 <= r_offset rj.
Proof.
  revert start. induction rs as [|r0 rs IH]; intros start Hc Hpos i j ri rj Hij Hi Hj.
  - rewrite lookup_nil in Hi. discriminate.
  - destruct Hc as [Hoff Hc]. apply Forall_cons in Hpos as [H0 Hpos'].
    destruct j as [|j]; [lia|]. simpl in Hj. destruct i as [|i]; simpl in Hi.
    + inversion Hi; subst ri. rewrite Hoff.
      apply (contiguous_later _ _ Hc Hpos' j rj Hj).
    + apply (IH _ Hc Hpos' i j); auto. lia.
Qed.

Lemma product_positive shape :
  Forall (fun n => 0 < n) shape → 0 < product shape.
Proof.
  induction 1 as [|n shape Hn _ IH]; simpl; [lia|].
  apply Z.mul_pos_pos; assumption.
Qed.

(** C2: in the blob of a successful write the descriptor offsets start at 0
    and each next offset is the previous one plus four times the recorded
    element count; so, the catalog shapes being positive, offsets increase
    strictly and no two payload regions overlap. *)
Theorem offsets_contiguous file order w w' :
  catalog_positive order →
  main_with file order w = (Ok tt, w') →
  ∃ rs payload,
    files w' !! BLOB_PATH file
    = Some (Binary (encode_header (header_of (length order))
                      ++ encode_table rs ++ payload))
    ∧ length rs = length order
    ∧ Forall record_wf rs
    ∧ offsets_chained rs
    ∧ offsets_increasing rs
    ∧ regions_disjoint rs.
Proof.
  intros Hpos H. apply run_facts in H
    as (models & w1 & entries & rs & _ & _ & Hblob & _ & Hl1 & Hl2 & _ & Hwf
        & Hcont & _ & Hall).
  assert (Hlen : Forall (fun r => 0 < r_length r) rs).
  { apply Forall_lookup. intros i r Hr.
    destruct (lookup_lt_is_Some_2 order i) as [d Hd].
    { rewrite <- Hl2. eapply lookup_lt_Some, Hr. }
    destruct (Hall _ _ Hd) as (e & r0 & _ & Hr0 & Hrest).
    rewrite Hr in Hr0. inversion Hr0; subst r0.
    destruct Hrest as (_ & _ & _ & _ & _ & Hp & _ & _ & Hrl & _).
    rewrite Hrl, Hp. apply product_positive.
    apply (Forall_lookup_1 _ _ _ _ Hpos Hd). }
  assert (Hnn : Forall (fun r => 0 <= r_length r) rs).
  { eapply Forall_impl; [exact Hlen|]. intros r Hr. simpl in *. lia. }
  exists rs, (concat (map e_bytes entries)).
  split; [rewrite Hblob; unfold blob_bytes; rewrite Hl1; reflexivity|].
  split; [exact Hl2|]. split; [exact Hwf|].
  split; [apply contiguous_chained, Hcont|]. split.
  - intros i j ri rj Hij Hi Hj.
    pose proof (contiguous_ordered _ _ Hcont Hnn i j ri rj Hij Hi Hj).
    pose proof (Forall_lookup_1 _ _ _ _ Hlen Hi). simpl in *. lia.
  - intros i j ri rj Hij Hi Hj.
    destruct (Nat.lt_total i j) as [Hlt | [-> | Hlt]]; [| contradiction |].
    + left. apply (contiguous_ordered _ _ Hcont Hnn i j); auto.
    + right. apply (contiguous_ordered _ _ Hcont Hnn j i); auto.
Qed.

Lemma offsets_contiguous_witness :
  catalog_positive Examples.catalog
  ∧ ∃ rs payload,
    files (Examples.after Examples.catalog Examples.good)
      !! BLOB_PATH Examples.script
    = Some (Binary (encode_header (header_of (length Examples.catalog))
                      ++ encode_table rs ++ payload))
    ∧ length rs = length Examples.catalog
    ∧ Forall record_wf rs
    ∧ offsets_chained rs
    ∧ offsets_increasing rs
    ∧ regions_disjoint rs.
Proof.
  assert (Hpos : catalog_positive Examples.catalog).
  { unfold catalog_positive, Examples.catalog. simpl.
    repeat constructor; simpl; lia. }
  split; [exact Hpos|].
  apply (offsets_contiguous Examples.script Examples.catalog Examples.good).
  - exact Hpos.
  - evaluate_run.
Defined.

(** ** The manifest *)

(** C3: a successful write leaves a manifest with the version, the dtype tag
    "f32", the tensor count and one entry per catalog tensor, in order; the
    checksum of an entry is the SHA-256 hex digest of the bytes that the
    tensor's descriptor delimits in the payload section of the blob. *)
Theorem manifest_checksums file order w w' :
  main_with file order w = (Ok tt, w') →
  ∃ rs payload tensors,
    files w' !! BLOB_PATH file
    = Some (Binary (encode_header (header_of (length order))
                      ++ encode_table rs ++ payload))
    ∧ length rs = length order
    ∧ Forall record_wf rs
    ∧ files w' !! MANIFEST_PATH file
      = Some (Text [JDict [ (str "version", JInt VERSION);
                            (str "dtype", JStr (str "f32"));
                            (str "tensor_count", JInt (Z.of_nat (length tensors)));
                            (str "tensors", JList tensors) ]])
    ∧ length tensors = length order
    ∧ ∀ (i : nat) d, order !! i = Some d →
        ∃ r, rs !! i = Some r
             ∧ tensors !! i
               = Some (manifest_entry d (r_length r) (payload_slice r payload)).
Proof.
  intros H. apply run_facts in H
    as (models & w1 & entries & rs & _ & _ & Hblob & Hman & Hl1 & Hl2 & _ & Hwf
        & _ & _ & Hall).
  exists rs, (concat (map e_bytes entries)), (map manifest_tensor entries).
  split; [rewrite Hblob; unfold blob_bytes; rewrite Hl1; reflexivity|].
  split; [exact Hl2|]. split; [exact Hwf|].
  split; [rewrite Hman, length_map; reflexivity|].
  split; [rewrite length_map; exact Hl1|].
  intros i d Hd.
  destruct (Hall _ _ Hd)
    as (e & r & He & Hr & Hn & Hs & Hst & _ & _ & _ & _ & _ & Hrl & Hslice).
  exists r. split; [exact Hr|].
  change (map manifest_tensor entries) with (manifest_tensor <$> entries).
  rewrite list_lookup_fmap, He. simpl.
  unfold manifest_tensor, manifest_entry. rewrite Hn, Hs, Hst, Hrl, Hslice.
  reflexivity.
Qed.

Lemma manifest_checksums_witness :
  ∃ rs payload tensors,
    files (Examples.after Examples.catalog Examples.good)
      !! BLOB_PATH Examples.script
    = Some (Binary (encode_header (header_of (length Examples.catalog))
                      ++ encode_table rs ++ payload))
    ∧ length rs = length Examples.catalog
    ∧ Forall record_wf rs
    ∧ files (Examples.after Examples.catalog Examples.good)
        !! MANIFEST_PATH Examples.script
      = Some (Text [JDict [ (str "version", JInt VERSION);
                            (str "dtype", JStr (str "f32"));
                            (str "tensor_count", JInt (Z.of_nat (length tensors)));
                            (str "tensors", JList tensors) ]])
    ∧ length tensors = length Examples.catalog
    ∧ ∀ (i : nat) d, Examples.catalog !! i = Some d →
        ∃ r, rs !! i = Some r
             ∧ tensors !! i
               = Some (manifest_entry d (r_length r) (payload_slice r payload)).
Proof.
  apply (manifest_checksums Examples.script Examples.catalog Examples.good).
  evaluate_run.
Defined.

(** ** Element counts and the payload section *)

(** C5: every entry built during a successful write has four bytes per
    element of its shape, and the element count in its descriptor record
    and under "len" in its manifest entry is the product of its shape. *)
Theorem element_counts file order w w' :
  main_with file order w = (Ok tt, w') →
  ∃ models w1 entries rs payload tensors,
    setup file w = (Ok models, w1)
    ∧ collect_entries models order [] = Ok entries
    ∧ files w' !! BLOB_PATH file
      = Some (Binary (encode_header (header_of (length order))
                        ++ encode_table rs ++ payload))
    ∧ Forall record_wf rs
    ∧ files w' !! MANIFEST_PATH file
      = Some (Text [JDict [ (str "version", JInt VERSION);
                            (str "dtype", JStr (str "f32"));
                            (str "tensor_count", JInt (Z.of_nat (length tensors)));
                            (str "tensors", JList tensors) ]])
    ∧ ∀ (i : nat) e, entries !! i = Some e →
        Z.of_nat (length (e_bytes e)) = product (e_shape e) * 4
        ∧ e_len e = product (e_shape e)
        ∧ ∃ r t, rs !! i = Some r ∧ tensors !! i = Some t
                 ∧ r_dims r = e_shape e
                 ∧ r_length r = product (e_shape e)
                 ∧ json_get (str "len") t = Some (JInt (product (e_shape e))).
Proof.
  intros H. apply run_facts in H
    as (models & w1 & entries & rs & Hsetup & Hcol & Hblob & Hman & Hl1 & Hl2
        & _ & Hwf & _ & _ & Hall).
  exists models, w1, entries, rs, (concat (map e_bytes entries)),
    (map manifest_tensor entries).
  split; [exact Hsetup|]. split; [exact Hcol|].
  split; [rewrite Hblob; unfold blob_bytes; rewrite Hl1; reflexivity|].
  split; [exact Hwf|].
  split; [rewrite Hman, length_map; reflexivity|].
  intros i e He.
  destruct (lookup_lt_is_Some_2 order i) as [d Hd].
  { rewrite <- Hl1. eapply lookup_lt_Some, He. }
  destruct (Hall _ _ Hd)
    as (e0 & r & He0 & Hr & _ & Hs & _ & _ & Hb & Hp & _ & Hdims & Hrl & _).
  rewrite He in He0. injection He0 as <-.
  rewrite Hs. split; [rewrite Hb, Hp; reflexivity|]. split; [exact Hp|].
  exists r, (manifest_tensor e).
  split; [exact Hr|].
  split; [change (map manifest_tensor entries) with (manifest_tensor <$> entries);
          rewrite list_lookup_fmap, He; reflexivity|].
  split; [exact Hdims|]. split; [congruence|].
  unfold manifest_tensor. rewrite <- Hp. reflexivity.
Qed.

Lemma element_counts_witness :
  ∃ models w1 entries rs payload tensors,
    setup Examples.script Examples.good = (Ok models, w1)
    ∧ collect_entries models Examples.catalog [] = Ok entries
    ∧ files (Examples.after Examples.catalog Examples.good)
        !! BLOB_PATH Examples.script
      = Some (Binary (encode_header (header_of (length Examples.catalog))
                        ++ encode_table rs ++ payload))
    ∧ Forall record_wf rs
    ∧ files (Examples.after Examples.catalog Examples.good)
        !! MANIFEST_PATH Examples.script
      = Some (Text [JDict [ (str "version", JInt VERSION);
                            (str "dtype", JStr (str "f32"));
                            (str "tensor_count", JInt (Z.of_nat (length tensors)));
                            (str "tensors", JList tensors) ]])
    ∧ ∀ (i : nat) e, entries !! i = Some e →
        Z.of_nat (length (e_bytes e)) = product (e_shape e) * 4
        ∧ e_len e = product (e_shape e)
        ∧ ∃ r t, rs !! i = Some r ∧ tensors !! i = Some t
                 ∧ r_dims r = e_shape e
                 ∧ r_length r = product (e_shape e)
                 ∧ json_get (str "len") t = Some (JInt (product (e_shape e))).
Proof.
  apply (element_counts Examples.script Examples.catalog Examples.good).
  evaluate_run.
Defined.

(** C6: in the blob of a successful write, what follows the descriptor table
    is the concatenation, in catalog order and with nothing in between, of
    the float32 payloads the sources hold for the catalog entries; its
    length is the sum of four times the element counts of the table. *)
Theorem payload_section file order w w' :
  main_with file order w = (Ok tt, w') →
  ∃ models w1 rs payloads,
    setup file w = (Ok models, w1)
    ∧ files w' !! BLOB_PATH file
      = Some (Binary (encode_header (header_of (length order))
                        ++ encode_table rs ++ concat payloads))
    ∧ length rs = length order
    ∧ Forall record_wf rs
    ∧ length payloads = length order
    ∧ (∀ (i : nat) d, order !! i = Some d →
         ∃ p, payloads !! i = Some p
              ∧ adapter_lookup models d.2 d.1.1 = Some (d.1.2, p))
    ∧ Z.of_nat (length (concat payloads))
      = sum_Z (map (fun r => r_length r * 4) rs).
Proof.
  intros H. apply run_facts in H
    as (models & w1 & entries & rs & Hsetup & _ & Hblob & _ & Hl1 & Hl2
        & _ & Hwf & _ & Hsz & Hall).
  exists models, w1, rs, (map e_bytes entries).
  split; [exact Hsetup|].
  split; [rewrite Hblob; unfold blob_bytes; rewrite Hl1; reflexivity|].
  split; [exact Hl2|]. split; [exact Hwf|].
  split; [rewrite length_map; exact Hl1|].
  split; [|apply payload_total, Hsz].
  intros i d Hd.
  destruct (Hall _ _ Hd) as (e & r & He & _ & _ & _ & _ & Had & _).
  exists (e_bytes e). split; [|exact Had].
  change (map e_bytes entries) with (e_bytes <$> entries).
  rewrite list_lookup_fmap, He. reflexivity.
Qed.

Lemma payload_section_witness :
  ∃ models w1 rs payloads,
    setup Examples.script Examples.good = (Ok models, w1)
    ∧ files (Examples.after Examples.catalog Examples.good)
        !! BLOB_PATH Examples.script
      = Some (Binary (encode_header (header_of (length Examples.catalog))
                        ++ encode_table rs ++ concat payloads))
    ∧ length rs = length Examples.catalog
    ∧ Forall record_wf rs
    ∧ length payloads = length Examples.catalog
    ∧ (∀ (i : nat) d, Examples.catalog !! i = Some d →
         ∃ p, payloads !! i = Some p
              ∧ adapter_lookup models d.2 d.1.1 = Some (d.1.2, p))
    ∧ Z.of_nat (length (concat payloads))
      = sum_Z (map (fun r => r_length r * 4) rs).
Proof.
  apply (payload_section Examples.script Examples.catalog Examples.good).
  evaluate_run.
Defined.

(** ** Failing runs *)

Lemma raises_only_bind P {A B} (m : M A) (k : A → M B) :
  raises_only P m → (∀ a, raises_only P (k a)) → raises_only P (m ≫= k).
Proof.
  intros Hm Hk w e w' H. apply bind_raise in H as [H | (a & w1 & _ & H)].
  - apply (Hm _ _ _ H).
  - apply (Hk _ _ _ _ H).
Qed.

Lemma raises_only_ret P {A} (a : A) : raises_only P (mret a).
Proof. intros w e w'. discriminate. Qed.

Lemma raises_only_fwrite f b :
  raises_only (fun e => ¬ validation_error e) (fwrite f b).
Proof.
  intros w e w'. unfold fwrite.
  destruct (files w !! f) as [[| |]|]; intros [= <- _]; simpl; auto.
Qed.

Lemma raises_only_open_w p c :
  raises_only (fun e => ¬ validation_error e) (open_w p c).
Proof.
  intros w e w'. unfold open_w.
  repeat case_bool_decide; intros [= <- _]; simpl; auto.
Qed.

Lemma raises_only_write_packed f fmt x :
  raises_only (fun e => ¬ validation_error e) (write_packed f fmt x).
Proof.
  apply raises_only_bind; [|intros; apply raises_only_fwrite].
  intros w e w'. unfold lift, struct_pack.
  destruct (_ && _); intros [= <- _]; simpl; auto.
Qed.

Lemma encode_utf8_raise s e : encode_utf8 s = Raise e → e = UnicodeEncodeError.
Proof.
  induction s as [|c s IH]; [discriminate|]. cbn [encode_utf8].
  unfold mbind, result_bind, utf8_char.
  repeat (destruct (_ <? _) || destruct (_ && _)); try (intros [= <-]; reflexivity);
    destruct (encode_utf8 s); try discriminate; intros [= <-]; auto.
Qed.

Lemma raises_only_write_dims f shape :
  raises_only (fun e => ¬ validation_error e) (write_dims f shape).
Proof.
  induction shape as [|dim shape IH]; [apply raises_only_ret|].
  apply raises_only_bind; [apply raises_only_write_packed | intros; exact IH].
Qed.

Lemma raises_only_write_descriptors f entries offset :
  raises_only (fun e => ¬ validation_error e) (write_descriptors f entries offset).
Proof.
  revert offset. induction entries as [|entry entries IH]; intros offset;
    [apply raises_only_ret|].
  cbn [write_descriptors]. apply raises_only_bind.
  { intros w e w'. unfold lift. intros [= H _].
    apply encode_utf8_raise in H as ->. simpl. auto. }
  intros name_bytes.
  repeat (apply raises_only_bind;
          [first [apply raises_only_write_packed | apply raises_only_fwrite
                 | apply raises_only_write_dims] | intros _]).
  apply IH.
Qed.

Lemma raises_only_write_payloads f entries :
  raises_only (fun e => ¬ validation_error e) (write_payloads f entries).
Proof.
  induction entries as [|entry entries IH]; [apply raises_only_ret|].
  apply raises_only_bind; [apply raises_only_fwrite | intros; exact IH].
Qed.

Lemma raises_only_emit file entries :
  raises_only (fun e => ¬ validation_error e) (emit file entries).
Proof.
  unfold emit.
  apply raises_only_bind; [apply raises_only_open_w | intros blob].
  repeat (apply raises_only_bind;
          [first [apply raises_only_write_packed | apply raises_only_fwrite
                 | apply raises_only_write_descriptors
                 | apply raises_only_write_payloads] | intros _]).
  apply raises_only_bind; [apply raises_only_open_w | intros mf].
  apply raises_only_bind.
  { intros w e w'. unfold json_dump.
    destruct (files w !! mf) as [[| |]|]; intros [= <- _]; simpl; auto. }
  intros _ w e w'. discriminate.
Qed.

(** The three ways a run can go. *)
Lemma main_with_cases file order w :
  (∃ e w1, setup file w = (Raise e, w1) ∧ main_with file order w = (Raise e, w1))
  ∨ (∃ models w1 e, setup file w = (Ok models, w1)
       ∧ collect_entries models order [] = Raise e
       ∧ main_with file order w = (Raise e, w1))
  ∨ (∃ models w1 entries, setup file w = (Ok models, w1)
       ∧ collect_entries models order [] = Ok entries
       ∧ main_with file order w = emit file entries w1).
Proof.
  rewrite main_with_phases. unfold mbind, M_bind, lift.
  destruct (setup file w) as [[models | e] w1] eqn:Hs; [|left; eauto].
  right.
  destruct (collect_entries models order []) as [entries | e] eqn:Hc.
  - right. exists models, w1, entries. rewrite Hc. auto.
  - left. exists models, w1, e. rewrite Hc. auto.
Qed.

(** C10: the loop validates every catalog entry before [main] opens a file:
    a run that changes a file has validated them all, and a run that fails
    with a missing tensor or a shape mismatch has created or written
    neither the blob nor the manifest, nor any other file. *)
Theorem write_atomic file order w r w' :
  main_with file order w = (r, w') →
  (files w' ≠ files w →
     ∃ models w1 entries,
       setup file w = (Ok models, w1)
       ∧ Forall2 (fun d e => entry_for models d = Ok e) order entries)
  ∧ (∀ e, r = Raise e → validation_error e → files w' = files w).
Proof.
  intros H.
  destruct (main_with_cases file order w)
    as [(e & w1 & Hs & Hm) | [(models & w1 & e & Hs & Hc & Hm)
                             | (models & w1 & entries & Hs & Hc & Hm)]];
    rewrite Hm in H.
  - injection H as <- <-. apply setup_raise_files in Hs.
    split; [contradiction | auto].
  - injection H as <- <-. apply setup_files in Hs as [Hs _].
    split; [contradiction | auto].
  - split.
    + intros _. exists models, w1, entries. split; [exact Hs|].
      apply collect_entries_ok in Hc as (es & -> & Hall). exact Hall.
    + intros e -> Hv. apply raises_only_emit in H. contradiction.
Qed.

Lemma write_atomic_witness :
  files (Examples.after Examples.catalog Examples.incomplete)
  = files Examples.incomplete.
Proof.
  refine (proj2 (write_atomic Examples.script Examples.catalog
                   Examples.incomplete
                   (Raise (MissingTensor (str "b") (str "stage1")))
                   (Examples.after Examples.catalog Examples.incomplete) _)
                _ eq_refl I).
  evaluate_run.
Defined.

(** ** Rejected catalog entries *)

Lemma accepted_is_ok models d : is_ok (entry_for models d) = true → accepted models d.
Proof. unfold accepted. destruct (entry_for models d) as [e|]; [eauto | discriminate]. Qed.

Lemma entry_for_mismatch models name expected stage pool init :
  models !! stage = Some pool → pool !! name = Some init →
  infer_shape init ≠ expected →
  entry_for models (name, expected, stage)
  = Raise (ShapeMismatch name expected (infer_shape init)).
Proof.
  intros Hpool Hinit Hne. unfold entry_for. rewrite Hpool, Hinit.
  case_bool_decide; [reflexivity | contradiction].
Qed.

Lemma entry_for_missing models name expected stage pool :
  models !! stage = Some pool → pool !! name = None →
  entry_for models (name, expected, stage) = Raise (MissingTensor name stage).
Proof. intros Hpool Hinit. unfold entry_for. rewrite Hpool, Hinit. reflexivity. Qed.

Lemma accepted_entries models order :
  Forall (accepted models) order →
  ∃ es, Forall2 (fun d e => entry_for models d = Ok e) order es.
Proof.
  induction 1 as [|d order [e He] _ [es IH]].
  - exists []. constructor.
  - exists (e :: es). constructor; assumption.
Qed.

(** A run over a catalog one of whose entries the loop body rejects: it
    fails after [setup], and with the exception of that entry when the
    entries before it are accepted, whatever comes after it. *)
Lemma main_with_rejects file order w models w1 i d x :
  setup file w = (Ok models, w1) →
  order !! i = Some d →
  entry_for models d = Raise x →
  files w1 = files w
  ∧ ∃ e, main_with file order w = (Raise e, w1)
      ∧ (Forall (accepted models) (take i order) →
         e = x
         ∧ ∀ later, main_with file (take i order ++ d :: later) w = (Raise x, w1)).
Proof.
  intros Hs Hi Hd. split; [apply (setup_files _ _ _ _ Hs)|].
  assert (Hpre : Forall (accepted models) (take i order) →
            ∀ later, main_with file (take i order ++ d :: later) w = (Raise x, w1)).
  { intros Hacc later. apply accepted_entries in Hacc as [es Hes].
    destruct (main_with_cases file (take i order ++ d :: later) w)
      as [(e & w2 & Hs' & _) | [(models' & w2 & e & Hs' & Hc & Hm)
                               | (models' & w2 & entries & Hs' & Hc & _)]];
      rewrite Hs in Hs'; try discriminate; injection Hs' as <- <-;
      rewrite (collect_entries_raise _ _ _ _ _ _ _ Hes Hd) in Hc;
      [|discriminate].
    injection Hc as <-. exact Hm. }
  destruct (main_with_cases file order w)
    as [(e & w2 & Hs' & _) | [(models' & w2 & e & Hs' & Hc & Hm)
                             | (models' & w2 & entries & Hs' & Hc & _)]];
    rewrite Hs in Hs'; try discriminate; injection Hs' as <- <-.
  - exists e. split; [exact Hm|]. intros Hacc. split; [|apply Hpre, Hacc].
    specialize (Hpre Hacc (drop (S i) order)).
    rewrite (take_drop_middle _ _ _ Hi), Hm in Hpre. congruence.
  - apply collect_entries_ok in Hc as (es & _ & Hall).
    destruct (Forall2_lookup_l _ _ _ _ _ Hall Hi) as (e & _ & He).
    congruence.
Qed.

(** C4, as the code has it: when the models hold, for some catalog entry, a
    tensor whose shape differs from the expected one, the run fails and
    leaves every file as it was; the failure is the shape mismatch of that
    entry, naming the tensor and both shapes, when the catalog entries
    before it are accepted. *)
Theorem shape_mismatch_rejected file order w models w1 i name expected stage
    pool init :
  setup file w = (Ok models, w1) →
  order !! i = Some (name, expected, stage) →
  models !! stage = Some pool → pool !! name = Some init →
  infer_shape init ≠ expected →
  ∃ e w',
    main_with file order w = (Raise e, w') ∧ files w' = files w
    ∧ (Forall (accepted models) (take i order) →
       e = ShapeMismatch name expected (infer_shape init)).
Proof.
  intros Hs Hi Hpool Hinit Hne.
  destruct (main_with_rejects file order w models w1 i _ _ Hs Hi
              (entry_for_mismatch _ _ _ _ _ _ Hpool Hinit Hne))
    as (Hf & e & Hm & He).
  exists e, w1. split; [exact Hm|]. split; [exact Hf|].
  intros Hacc. apply He, Hacc.
Qed.

(** C7, as the code has it: when the name of a catalog entry is absent from
    the initializers of its stage, the run fails and leaves every file as it
    was; when the catalog entries before it are accepted, the failure names
    that tensor and its stage, whatever entries come after it. *)
Theorem missing_tensor_rejected file order w models w1 i name expected stage
    pool :
  setup file w = (Ok models, w1) →
  order !! i = Some (name, expected, stage) →
  models !! stage = Some pool → pool !! name = None →
  ∃ e w',
    main_with file order w = (Raise e, w') ∧ files w' = files w
    ∧ (Forall (accepted models) (take i order) →
       e = MissingTensor name stage
       ∧ ∀ later,
           main_with file (take i order ++ (name, expected, stage) :: later) w
           = (Raise (MissingTensor name stage), w')).
Proof.
  intros Hs Hi Hpool Hinit.
  destruct (main_with_rejects file order w models w1 i _ _ Hs Hi
              (entry_for_missing _ _ expected _ _ Hpool Hinit))
    as (Hf & e & Hm & He).
  exists e, w1. split; [exact Hm|]. split; [exact Hf|]. exact He.
Qed.

Lemma shape_mismatch_rejected_witness :
  ∃ w', main_with Examples.script Examples.catalog Examples.misshapen
        = (Raise (ShapeMismatch (str "b") [3] [4]), w')
        ∧ files w' = files Examples.misshapen.
Proof.
  destruct (shape_mismatch_rejected Examples.script Examples.catalog
              Examples.misshapen
              (models_of [Examples.tensor_a; Examples.tensor_b_long] [])
              (snd (setup Examples.script Examples.misshapen))
              1%nat (str "b") [3] (str "stage1")
              (initializers [Examples.tensor_a; Examples.tensor_b_long])
              Examples.tensor_b_long)
    as (e & w' & Hm & Hf & He).
  - evaluate_run.
  - reflexivity.
  - vm_compute; reflexivity.
  - vm_compute; reflexivity.
  - vm_compute. discriminate.
  - exists w'. rewrite He in Hm; [split; [exact Hm | exact Hf]|].
    repeat constructor. apply accepted_is_ok. vm_compute. reflexivity.
Defined.

(** C4 as stated fails: the models hold [b] with shape (4,) where the
    catalog expects (3,), yet the run ends with the missing tensor [a], the
    catalog entry before it, and not with a shape mismatch. *)
Lemma shape_mismatch_counterexample :
  let w := Examples.absent_then_misshapen in
  let models := models_of [Examples.tensor_b_long] [] in
  fst (setup Examples.script w) = Ok models
  ∧ Examples.catalog !! 1%nat = Some (str "b", [3], str "stage1")
  ∧ adapter_lookup models (str "stage1") (str "b")
    = Some ([4], flat_map float32_bytes (tp_data Examples.tensor_b_long))
  ∧ [4] ≠ [3]
  ∧ fst (main_with Examples.script Examples.catalog w)
    = Raise (MissingTensor (str "a") (str "stage1"))
  ∧ ∀ name expected actual,
      fst (main_with Examples.script Examples.catalog w)
      ≠ Raise (ShapeMismatch name expected actual).
Proof.
  assert (H : fst (main_with Examples.script Examples.catalog
                     Examples.absent_then_misshapen)
              = Raise (MissingTensor (str "a") (str "stage1")))
    by (vm_compute; reflexivity).
  cbv zeta. rewrite H.
  split; [vm_compute; reflexivity|]. split; [reflexivity|].
  split; [vm_compute; reflexivity|]. split; [discriminate|].
  split; [reflexivity | discriminate].
Qed.

Lemma missing_tensor_rejected_witness :
  ∃ w', (∀ later,
           main_with Examples.script
             ((str "a", [2; 2], str "stage1") :: (str "b", [3], str "stage1") :: later)
             Examples.incomplete
           = (Raise (MissingTensor (str "b") (str "stage1")), w'))
        ∧ files w' = files Examples.incomplete.
Proof.
  destruct (missing_tensor_rejected Examples.script Examples.catalog
              Examples.incomplete
              (models_of [Examples.tensor_a] [])
              (snd (setup Examples.script Examples.incomplete))
              1%nat (str "b") [3] (str "stage1")
              (initializers [Examples.tensor_a]))
    as (e & w' & Hm & Hf & He).
  - evaluate_run.
  - reflexivity.
  - vm_compute; reflexivity.
  - vm_compute; reflexivity.
  - exists w'. split; [|exact Hf].
    apply He. repeat constructor. apply accepted_is_ok. vm_compute. reflexivity.
Defined.

(** C7 as stated fails: [b] is the first catalog entry absent from the
    models, yet the run ends with the shape mismatch of [a], the catalog
    entry before it, and not with a missing tensor. *)
Lemma missing_tensor_counterexample :
  let w := Examples.misshapen_then_absent in
  let models := models_of [Examples.tensor_a_flat] [] in
  fst (setup Examples.script w) = Ok models
  ∧ adapter_lookup models (str "stage1") (str "a")
    = Some ([4], flat_map float32_bytes (tp_data Examples.tensor_a))
  ∧ Examples.catalog !! 1%nat = Some (str "b", [3], str "stage1")
  ∧ adapter_lookup models (str "stage1") (str "b") = None
  ∧ fst (main_with Examples.script Examples.catalog w)
    = Raise (ShapeMismatch (str "a") [2; 2] [4])
  ∧ ∀ name stage,
      fst (main_with Examples.script Examples.catalog w)
      ≠ Raise (MissingTensor name stage).
Proof.
  assert (H : fst (main_with Examples.script Examples.catalog
                     Examples.misshapen_then_absent)
              = Raise (ShapeMismatch (str "a") [2; 2] [4]))
    by (vm_compute; reflexivity).
  cbv zeta. rewrite H.
  split; [vm_compute; reflexivity|].
  split; [vm_compute; reflexivity|]. split; [reflexivity|].
  split; [vm_compute; reflexivity|].
  split; [reflexivity | discriminate].
Qed.

(** ** Determinism *)

Lemma entry_determined (d : TensorDescriptor) e1 e2 bytes :
  (e_name e1 = d.1.1 ∧ e_shape e1 = d.1.2 ∧ e_stage e1 = d.2
   ∧ bytes = Some (d.1.2, e_bytes e1)
   ∧ Z.of_nat (length (e_bytes e1)) = e_len e1 * 4) →
  (e_name e2 = d.1.1 ∧ e_shape e2 = d.1.2 ∧ e_stage e2 = d.2
   ∧ bytes = Some (d.1.2, e_bytes e2)
   ∧ Z.of_nat (length (e_bytes e2)) = e_len e2 * 4) →
  e1 = e2.
Proof.
  destruct e1 as [n1 s1 l1 b1 t1], e2 as [n2 s2 l2 b2 t2]. simpl.
  intros (-> & -> & -> & -> & H1) (-> & -> & -> & [= <-] & H2).
  f_equal. lia.
Qed.

Lemma entries_determined models1 models2 order es1 es2 :
  Forall (fun d : TensorDescriptor =>
            adapter_lookup models1 d.2 d.1.1 = adapter_lookup models2 d.2 d.1.1)
         order →
  Forall2 (fun d e => entry_for models1 d = Ok e) order es1 →
  Forall2 (fun d e => entry_for models2 d = Ok e) order es2 →
  es1 = es2.
Proof.
  intros Hsame H1 H2. apply entries_catalog in H1, H2.
  revert es2 H2. induction H1 as [|d e1 order es1 He1 _ IH]; intros es2 H2.
  - inversion H2. reflexivity.
  - inversion H2 as [|? e2 ? es2' He2 H2']; subst.
    apply Forall_cons in Hsame as [Hd Hsame]. f_equal.
    + apply (entry_determined d e1 e2 (adapter_lookup models1 d.2 d.1.1)).
      * tauto.
      * rewrite Hd. tauto.
    + apply IH; assumption.
Qed.

(** C8: two successful runs over worlds whose models hand over the same
    shape and the same bytes for every catalog entry leave the same blob,
    byte for byte, and the same manifest document. *)
Theorem writer_deterministic file order w1 w2 w1' w2' :
  Forall (fun d : TensorDescriptor =>
            adapter file w1 d.2 d.1.1 = adapter file w2 d.2 d.1.1) order →
  main_with file order w1 = (Ok tt, w1') →
  main_with file order w2 = (Ok tt, w2') →
  ∃ blob manifest,
    files w1' !! BLOB_PATH file = Some (Binary blob)
    ∧ files w2' !! BLOB_PATH file = Some (Binary blob)
    ∧ files w1' !! MANIFEST_PATH file = Some (Text [manifest])
    ∧ files w2' !! MANIFEST_PATH file = Some (Text [manifest]).
Proof.
  intros Hsame H1 H2.
  apply main_with_ok in H1
    as (models1 & u1 & es1 & rs1 & Hs1 & Hall1 & _ & _ & _ & Hrs1 & _ & ->).
  apply main_with_ok in H2
    as (models2 & u2 & es2 & rs2 & Hs2 & Hall2 & _ & _ & _ & Hrs2 & _ & ->).
  unfold adapter in Hsame. rewrite Hs1, Hs2 in Hsame. simpl in Hsame.
  assert (es1 = es2) as <- by apply (entries_determined _ _ _ _ _ Hsame Hall1 Hall2).
  assert (rs1 = rs2) as <- by congruence.
  exists (blob_bytes rs1 es1), (manifest_of es1).
  rewrite !emitted_blob, !emitted_manifest. auto.
Qed.

Lemma writer_deterministic_witness :
  let w1 := Examples.good in
  let w2 := Examples.world [Examples.tensor_b; Examples.tensor_a]
              [Examples.tensor_a_flat] in
  ∃ blob manifest,
    files (Examples.after Examples.catalog w1) !! BLOB_PATH Examples.script
    = Some (Binary blob)
    ∧ files (Examples.after Examples.catalog w2) !! BLOB_PATH Examples.script
      = Some (Binary blob)
    ∧ files (Examples.after Examples.catalog w1) !! MANIFEST_PATH Examples.script
      = Some (Text [manifest])
    ∧ files (Examples.after Examples.catalog w2) !! MANIFEST_PATH Examples.script
      = Some (Text [manifest]).
Proof.
  cbv zeta.
  apply (writer_deterministic Examples.script Examples.catalog Examples.good
           (Examples.world [Examples.tensor_b; Examples.tensor_a]
              [Examples.tensor_a_flat])).
  - repeat constructor; vm_compute; reflexivity.
  - evaluate_run.
  - evaluate_run.
Defined.

(** ** Reading a blob back *)

Lemma read_bytes_app xs rest :
  read_bytes (length xs) (xs ++ rest) = Some (xs, rest).
Proof.
  unfold read_bytes. rewrite decide_True by (rewrite length_app; lia).
  rewrite take_app_length, drop_app_length. reflexivity.
Qed.

Lemma read_uint_le_bytes n x rest :
  fits n x → read_uint n (le_bytes n x ++ rest) = Some (x, rest).
Proof.
  intros H. unfold read_uint.
  pose proof (read_bytes_app (le_bytes n x) rest) as Hr.
  rewrite length_le_bytes in Hr. rewrite Hr. cbn [mbind option_bind].
  rewrite (le_value_le_bytes _ _ H). reflexivity.
Qed.

Lemma read_dims_encode dims rest :
  Forall (fits 4) dims →
  read_dims (length dims) (flat_map (le_bytes 4) dims ++ rest) = Some (dims, rest).
Proof.
  induction 1 as [|dim dims Hd _ IH]; [reflexivity|].
  cbn [length read_dims flat_map]. rewrite <- app_assoc.
  rewrite (read_uint_le_bytes 4 _ _ Hd). cbn [mbind option_bind]. rewrite IH. reflexivity.
Qed.

Lemma read_record_encode r rest :
  record_wf r → read_record (encode_record r ++ rest) = Some (r, rest).
Proof.
  intros (Hnl & Hnf & Hdc & Hdf & Hdims & Hoff & Hlen).
  unfold read_record, encode_record. rewrite <- !app_assoc.
  rewrite (read_uint_le_bytes 2 _ _ Hnf). cbn [mbind option_bind].
  rewrite Hnl at 1. rewrite Nat2Z.id, read_bytes_app. cbn [mbind option_bind].
  rewrite (read_uint_le_bytes 1 _ _ Hdf). cbn [mbind option_bind].
  rewrite Hdc at 1. rewrite Nat2Z.id, (read_dims_encode _ _ Hdims). cbn [mbind option_bind].
  rewrite (read_uint_le_bytes 4 _ _ Hoff). cbn [mbind option_bind].
  rewrite (read_uint_le_bytes 4 _ _ Hlen). cbn [mbind option_bind].
  destruct r; reflexivity.
Qed.

Lemma read_table_encode rs rest :
  Forall record_wf rs →
  read_table (length rs) (encode_table rs ++ rest) = Some (rs, rest).
Proof.
  induction 1 as [|r rs Hr _ IH]; [reflexivity|].
  rewrite encode_table_cons. cbn [length read_table]. rewrite <- app_assoc.
  rewrite (read_record_encode _ _ Hr). cbn [mbind option_bind]. rewrite IH. reflexivity.
Qed.

Lemma read_header_encode h rest :
  header_wf h → read_header (encode_header h ++ rest) = Some (h, rest).
Proof.
  intros (Hm & Hv & He & Hd & Hn).
  unfold read_header, encode_header. rewrite <- !app_assoc.
  pose proof (read_bytes_app (magic h)) as Hr. rewrite Hm in Hr.
  rewrite Hr. cbn [mbind option_bind].
  rewrite (read_uint_le_bytes 4 _ _ Hv). cbn [mbind option_bind].
  rewrite (read_uint_le_bytes 1 _ _ He). cbn [mbind option_bind].
  rewrite (read_uint_le_bytes 1 _ _ Hd). cbn [mbind option_bind].
  rewrite (read_uint_le_bytes 4 _ _ Hn). cbn [mbind option_bind].
  destruct h; reflexivity.
Qed.

(** Opening what the exporter wrote gives back its table and its payload
    section. *)
Lemma reader_open_blob rs entries :
  fits 4 (Z.of_nat (length entries)) → length rs = length entries →
  Forall record_wf rs →
  reader_open (blob_bytes rs entries)
  = inr {| h_header := header_of (length entries); h_table := rs;
           h_payload := concat (map e_bytes entries) |}.
Proof.
  intros Hn Hlen Hwf. unfold reader_open, blob_bytes.
  destruct fits_header_constants as (Hv & He & Hd).
  assert (Hh : header_wf (header_of (length entries))).
  { unfold header_wf, header_of.
    cbn [magic version endianness dtype tensor_count].
    split; [reflexivity|]. repeat (split; [assumption|]). assumption. }
  rewrite (read_header_encode _ _ Hh).
  rewrite bool_decide_eq_true_2 by (repeat split; reflexivity).
  cbn [tensor_count header_of]. rewrite Nat2Z.id, <- Hlen.
  rewrite (read_table_encode _ _ Hwf). reflexivity.
Qed.

(** UTF-8 is injective: a name is determined by its bytes. *)
Lemma utf8_char_cases c b :
  utf8_char c = Ok b →
  (Z.of_N c < 128 ∧ b = [byte_of_Z (Z.of_N c)])
  ∨ (128 <= Z.of_N c < 2048
     ∧ b = [byte_of_Z (192 + Z.of_N c / 64); byte_of_Z (128 + Z.of_N c mod 64)])
  ∨ (2048 <= Z.of_N c < 65536
     ∧ b = [byte_of_Z (224 + Z.of_N c / 4096);
            byte_of_Z (128 + (Z.of_N c / 64) mod 64);
            byte_of_Z (128 + Z.of_N c mod 64)])
  ∨ (65536 <= Z.of_N c < 1114112
     ∧ b = [byte_of_Z (240 + Z.of_N c / 262144);
            byte_of_Z (128 + (Z.of_N c / 4096) mod 64);
            byte_of_Z (128 + (Z.of_N c / 64) mod 64);
            byte_of_Z (128 + Z.of_N c mod 64)]).
Proof.
  unfold utf8_char. generalize (Z.of_N c) as z. intros z.
  destruct (Z.ltb_spec z 128); [intros [= <-]; auto|].
  destruct (Z.ltb_spec z 2048); [intros [= <-]; right; left; auto|].
  destruct (Z.ltb_spec z 65536).
  { destruct (_ && _); [discriminate|]. intros [= <-]. right; right; left; auto. }
  destruct (Z.ltb_spec z 1114112); [|discriminate].
  intros [= <-]. right; right; right; auto.
Qed.

Ltac byte_facts :=
  repeat match goal with
    | H : _ :: _ = _ :: _ |- _ => injection H as ? ?
    | H : byte_of_Z _ = byte_of_Z _ |- _ =>
        apply byte_of_Z_inj in H;
        [| Z.to_euclidean_division_equations; lia ..]
    end.

Lemma utf8_char_prefix c1 c2 b1 b2 r1 r2 :
  utf8_char c1 = Ok b1 → utf8_char c2 = Ok b2 →
  b1 ++ r1 = b2 ++ r2 → c1 = c2 ∧ r1 = r2.
Proof.
  intros H1 H2 H.
  apply utf8_char_cases in H1, H2.
  pose proof (N2Z.is_nonneg c1) as Hc1. pose proof (N2Z.is_nonneg c2) as Hc2.
  assert (Z.of_N c1 = Z.of_N c2 ∧ r1 = r2) as [Hz Hr];
    [|split; [apply N2Z.inj, Hz | exact Hr]].
  revert H H1 H2 Hc1 Hc2. generalize (Z.of_N c1) (Z.of_N c2).
  intros z1 z2 H H1 H2 Hc1 Hc2.
  destruct H1 as [[? ->] | [[? ->] | [[? ->] | [? ->]]]];
    destruct H2 as [[? ->] | [[? ->] | [[? ->] | [? ->]]]];
    cbn [app] in H; byte_facts;
    first [ split; [Z.to_euclidean_division_equations; lia | assumption]
          | exfalso; Z.to_euclidean_division_equations; lia ].
Qed.

Lemma encode_utf8_inj s1 s2 bs :
  encode_utf8 s1 = Ok bs → encode_utf8 s2 = Ok bs → s1 = s2.
Proof.
  revert s2 bs. induction s1 as [|c1 s1 IH]; intros [|c2 s2] bs H1 H2;
    cbn [encode_utf8] in H1, H2.
  - reflexivity.
  - injection H1 as <-.
    apply result_bind_ok in H2 as (b & Hb & H2).
    apply result_bind_ok in H2 as (bs' & _ & [= H2]).
    apply utf8_char_cases in Hb.
    destruct Hb as [[? ->] | [[? ->] | [[? ->] | [? ->]]]]; discriminate.
  - injection H2 as <-.
    apply result_bind_ok in H1 as (b & Hb & H1).
    apply result_bind_ok in H1 as (bs' & _ & [= H1]).
    apply utf8_char_cases in Hb.
    destruct Hb as [[? ->] | [[? ->] | [[? ->] | [? ->]]]]; discriminate.
  - apply result_bind_ok in H1 as (b1 & Hb1 & H1).
    apply result_bind_ok in H1 as (bs1 & Hs1 & [= H1]).
    apply result_bind_ok in H2 as (b2 & Hb2 & H2).
    apply result_bind_ok in H2 as (bs2 & Hs2 & [= H2]).
    rewrite <- H2 in H1.
    destruct (utf8_char_prefix _ _ _ _ _ _ Hb1 Hb2 H1) as [-> ->].
    f_equal. apply (IH _ _ Hs1 Hs2).
Qed.

Lemma find_at {A} (P : A → bool) (l : list A) (i : nat) x :
  l !! i = Some x → P x = true →
  (∀ (j : nat) y, l !! j = Some y → P y = true → j = i) →
  List.find P l = Some x.
Proof.
  revert i. induction l as [|a l IH]; intros i Hi Hx Huniq.
  - rewrite lookup_nil in Hi. discriminate.
  - simpl. destruct (P a) eqn:Ha.
    + assert (0%nat = i) as <- by (apply (Huniq 0%nat a); auto).
      simpl in Hi. congruence.
    + destruct i as [|i]; [simpl in Hi; congruence|].
      apply (IH i); auto. intros j y Hj Hy.
      specialize (Huniq (S j) y Hj Hy). lia.
Qed.

(** C9, for catalogs that name each tensor once: the blob of a successful
    run opens, and asking the handle for the name of a catalog entry gives
    the expected shape and the very bytes the models hold for that entry. *)
Theorem round_trip file order w w' :
  NoDup (map (fun d : TensorDescriptor => d.1.1) order) →
  main_with file order w = (Ok tt, w') →
  ∃ blob h,
    files w' !! BLOB_PATH file = Some (Binary blob)
    ∧ reader_open blob = inr h
    ∧ Forall (fun d : TensorDescriptor =>
                ∃ payload,
                  adapter file w d.2 d.1.1 = Some (d.1.2, payload)
                  ∧ reader_tensor h d.1.1 = inr (d.1.2, payload))
             order.
Proof.
  intros Hnodup H.
  destruct (run_facts _ _ _ _ H)
    as (models & w1 & entries & rs & Hs & _ & Hblob & _ & Hle & Hlr & Hfit
        & Hwf & _ & _ & Hidx).
  exists (blob_bytes rs entries),
    {| h_header := header_of (length entries); h_table := rs;
       h_payload := concat (map e_bytes entries) |}.
  split; [exact Hblob|].
  split; [apply reader_open_blob; [rewrite Hle; exact Hfit | congruence | exact Hwf]|].
  apply Forall_lookup. intros i d Hd.
  destruct (Hidx i d Hd)
    as (e & r & He & Hr & _ & _ & _ & Had & _ & _ & Hnb & Hdims & _ & Hslice).
  exists (e_bytes e). unfold adapter. rewrite Hs. cbn [fst].
  split; [exact Had|].
  unfold reader_tensor. rewrite Hnb. cbn [h_table h_payload].
  rewrite (find_at _ rs i r Hr).
  - rewrite Hdims, Hslice. reflexivity.
  - apply bool_decide_eq_true_2. reflexivity.
  - intros j r' Hj Hsame. apply bool_decide_eq_true_1 in Hsame.
    assert (Hlt : (j < length order)%nat)
      by (rewrite <- Hlr; apply (lookup_lt_Some _ _ _ Hj)).
    apply lookup_lt_is_Some_2 in Hlt as [d' Hd'].
    destruct (Hidx j d' Hd')
      as (e' & r'' & _ & Hr'' & _ & _ & _ & _ & _ & _ & Hnb' & _).
    rewrite Hj in Hr''. injection Hr'' as <-. rewrite Hsame in Hnb'.
    pose proof (encode_utf8_inj _ _ _ Hnb' Hnb) as Hname.
    apply (NoDup_lookup _ j i d.1.1 Hnodup); rewrite list_lookup_fmap.
    + rewrite Hd'. simpl. rewrite Hname. reflexivity.
    + rewrite Hd. reflexivity.
Qed.

Lemma round_trip_witness :
  ∃ blob h,
    files (Examples.after Examples.catalog Examples.good)
      !! BLOB_PATH Examples.script = Some (Binary blob)
    ∧ reader_open blob = inr h
    ∧ Forall (fun d : TensorDescriptor =>
                ∃ payload,
                  adapter Examples.script Examples.good d.2 d.1.1
                  = Some (d.1.2, payload)
                  ∧ reader_tensor h d.1.1 = inr (d.1.2, payload))
             Examples.catalog.
Proof.
  apply (round_trip Examples.script Examples.catalog Examples.good).
  - apply (bool_decide_unpack _). vm_compute. exact I.
  - evaluate_run.
Defined.

(** C9 as stated fails: the catalog names [a] in both stages, the run
    succeeds and the blob opens, but the blob keeps no stage, so asking for
    [a] gives the first-stage tensor and the second-stage bytes are not
    what the reader returns for their catalog entry. *)
Lemma round_trip_counterexample :
  let w := Examples.twin_world in
  let first := flat_map float32_bytes (tp_data Examples.tensor_a) in
  let second := flat_map float32_bytes (tp_data Examples.tensor_a_short) in
  fst (main_with Examples.script Examples.twins w) = Ok tt
  ∧ Examples.twins !! 1%nat = Some (str "a", [3], str "stage2")
  ∧ adapter Examples.script w (str "stage2") (str "a") = Some ([3], second)
  ∧ ∃ blob h,
      files (Examples.after Examples.twins w) !! BLOB_PATH Examples.script
      = Some (Binary blob)
      ∧ reader_open blob = inr h
      ∧ reader_tensor h (str "a") = inr ([2; 2], first)
      ∧ reader_tensor h (str "a") ≠ inr ([3], second).
Proof.
  cbv zeta.
  split; [vm_compute; reflexivity|]. split; [reflexivity|].
  split; [vm_compute; reflexivity|].
  destruct (files (Examples.after Examples.twins Examples.twin_world)
              !! BLOB_PATH Examples.script) as [[| blob |]|] eqn:Hblob;
    try (vm_compute in Hblob; discriminate).
  destruct (reader_open blob) as [err | h] eqn:Hopen;
    [vm_compute in Hblob; injection Hblob as <-; vm_compute in Hopen;
     discriminate|].
  exists blob, h. split; [reflexivity|]. split; [exact Hopen|].
  vm_compute in Hblob. injection Hblob as <-.
  vm_compute in Hopen. injection Hopen as <-.
  split; [vm_compute; reflexivity|]. vm_compute. discriminate.
Qed.

(** ** What a run may touch *)

Lemma bounded_bind_val ps out {A B} (m : M A) (k : A → M B) :
  bounded ps [] m →
  (∀ a w w1, m w = (Ok a, w1) → bounded ps out (k a)) →
  bounded ps out (m ≫= k).
Proof.
  intros Hm Hk w r w'. unfold mbind, M_bind.
  destruct (m w) as [[a | e] w1] eqn:E; intros H.
  - destruct (Hm _ _ _ E) as (F1 & K1 & D1 & S1).
    destruct (Hk _ _ _ E _ _ _ H) as (F2 & K2 & D2 & S2).
    split; [intros p Hp; rewrite F2, F1 by exact Hp; reflexivity|].
    split; [intros p Hp; apply K2, K1, Hp|].
    split; [set_solver|].
    rewrite S2, S1. simpl. rewrite app_nil_r. reflexivity.
  - injection H as <- <-. destruct (Hm _ _ _ E) as (F1 & K1 & D1 & S1).
    auto.
Qed.

Lemma bounded_bind ps out {A B} (m : M A) (k : A → M B) :
  bounded ps [] m → (∀ a, bounded ps out (k a)) → bounded ps out (m ≫= k).
Proof. intros Hm Hk. apply bounded_bind_val; auto. Qed.

Lemma bounded_pure ps {A} (r : result A) : bounded ps [] (lift r).
Proof.
  intros w r' w' [= <- <-]. repeat split; auto.
  destruct r; simpl; rewrite app_nil_r; reflexivity.
Qed.

Lemma bounded_ret ps {A} (a : A) : bounded ps [] (mret a).
Proof. apply (bounded_pure ps (Ok a)). Qed.

Lemma bounded_same ps {A} (m : M A) :
  (∀ w, snd (m w) = w) → bounded ps [] m.
Proof.
  intros Hm w r w' H. pose proof (Hm w) as Hw. rewrite H in Hw.
  simpl in Hw. subst w'. repeat split; auto.
  destruct r; simpl; rewrite app_nil_r; reflexivity.
Qed.

(** Writing [c] into [p], one of the files of [ps]. *)
Lemma bounded_put (ps : list Path) p c w (r : result unit) :
  p ∈ ps →
  (∀ q, q ∉ ps → files (put p c w) !! q = files w !! q)
  ∧ (∀ q, is_Some (files w !! q) → is_Some (files (put p c w) !! q))
  ∧ dirs w ⊆ dirs (put p c w)
  ∧ stdout (put p c w) = stdout w ++ printed r [].
Proof.
  intros Hp. unfold put. simpl.
  split; [intros q Hq; apply lookup_insert_ne; intros ->; contradiction|].
  split.
  { intros q Hq. destruct (decide (p = q)) as [->|Hne].
    - rewrite lookup_insert_eq. eauto.
    - rewrite lookup_insert_ne by exact Hne. exact Hq. }
  split; [reflexivity|].
  destruct r; simpl; rewrite app_nil_r; reflexivity.
Qed.

Lemma bounded_mkdir ps p : bounded ps [] (mkdir p).
Proof.
  intros w r w'. unfold mkdir.
  destruct (existsb _ _); intros [= <- <-]; simpl;
    rewrite app_nil_r; repeat split; auto; set_solver.
Qed.

Lemma bounded_onnx_load ps p : bounded ps [] (onnx_load p).
Proof.
  apply bounded_same. intros w. unfold onnx_load.
  destruct (files w !! p) as [[| |]|]; reflexivity.
Qed.

Lemma bounded_load_initializers ps p : bounded ps [] (load_initializers p).
Proof.
  apply bounded_bind; [apply bounded_onnx_load | intros; apply bounded_ret].
Qed.

Lemma bounded_open_w (ps : list Path) p c : p ∈ ps → bounded ps [] (open_w p c).
Proof.
  intros Hp w r w'. unfold open_w.
  repeat case_bool_decide; intros [= <- <-];
    try (apply (bounded_same ps (fun w => (Raise (OSError p), w)));
         [reflexivity | reflexivity]).
  apply (bounded_put ps p c w (Ok tt) Hp).
Qed.

Lemma bounded_fwrite (ps : list Path) f b : f ∈ ps → bounded ps [] (fwrite f b).
Proof.
  intros Hf w r w'. unfold fwrite.
  destruct (files w !! f) as [[| old |]|]; intros [= <- <-];
    try (apply (bounded_same ps (fun w => (Raise (OSError f), w)));
         [reflexivity | reflexivity]).
  apply (bounded_put ps f (Binary (old ++ b)) w (Ok tt) Hf).
Qed.

Lemma bounded_json_dump (ps : list Path) doc f : f ∈ ps → bounded ps [] (json_dump doc f).
Proof.
  intros Hf w r w'. unfold json_dump.
  destruct (files w !! f) as [[| | old]|]; intros [= <- <-];
    try (apply (bounded_same ps (fun w => (Raise (OSError f), w)));
         [reflexivity | reflexivity]).
  apply (bounded_put ps f (Text (old ++ [doc])) w (Ok tt) Hf).
Qed.

Lemma bounded_print ps line : bounded ps [line] (print line).
Proof. intros w r w' [= <- <-]. simpl. repeat split; auto. Qed.

Lemma bounded_write_packed (ps : list Path) f fmt x :
  f ∈ ps → bounded ps [] (write_packed f fmt x).
Proof.
  intros Hf. apply bounded_bind; [apply bounded_pure|].
  intros b. apply bounded_fwrite, Hf.
Qed.

Lemma bounded_write_dims (ps : list Path) f shape :
  f ∈ ps → bounded ps [] (write_dims f shape).
Proof.
  intros Hf. induction shape as [|dim shape IH]; [apply bounded_ret|].
  apply bounded_bind; [apply bounded_write_packed, Hf | intros _; exact IH].
Qed.

Lemma bounded_write_descriptors (ps : list Path) f entries offset :
  f ∈ ps → bounded ps [] (write_descriptors f entries offset).
Proof.
  intros Hf. revert offset.
  induction entries as [|entry entries IH]; intros offset; [apply bounded_ret|].
  cbn [write_descriptors].
  apply bounded_bind; [apply bounded_pure | intros name_bytes].
  repeat (apply bounded_bind;
          [first [apply bounded_write_packed, Hf | apply bounded_fwrite, Hf
                 | apply bounded_write_dims, Hf] | intros _]).
  apply IH.
Qed.

Lemma bounded_write_payloads (ps : list Path) f entries :
  f ∈ ps → bounded ps [] (write_payloads f entries).
Proof.
  intros Hf. induction entries as [|entry entries IH]; [apply bounded_ret|].
  apply bounded_bind; [apply bounded_fwrite, Hf | intros _; exact IH].
Qed.

Lemma bounded_main_with file order :
  bounded [BLOB_PATH file; MANIFEST_PATH file]
    [Wrote (BLOB_PATH file) (MANIFEST_PATH file)] (main_with file order).
Proof.
  assert (Hb : BLOB_PATH file ∈ [BLOB_PATH file; MANIFEST_PATH file])
    by (apply elem_of_cons; left; reflexivity).
  assert (Hm : MANIFEST_PATH file ∈ [BLOB_PATH file; MANIFEST_PATH file])
    by (apply elem_of_cons; right; apply elem_of_cons; left; reflexivity).
  intros w r w' H. rewrite main_with_phases in H. revert w r w' H.
  apply bounded_bind.
  { unfold setup. apply bounded_bind; [apply bounded_mkdir | intros _].
    apply bounded_bind; [apply bounded_load_initializers | intros s1].
    apply bounded_bind; [apply bounded_load_initializers | intros s2].
    apply bounded_ret. }
  intros models. apply bounded_bind; [apply bounded_pure | intros entries].
  unfold emit.
  apply bounded_bind_val; [apply bounded_open_w, Hb | intros blob w0 w1 Ho].
  apply open_w_ok in Ho as (_ & _ & -> & _).
  repeat (apply bounded_bind;
          [first [apply bounded_write_packed, Hb | apply bounded_fwrite, Hb
                 | apply bounded_write_descriptors, Hb
                 | apply bounded_write_payloads, Hb] | intros _]).
  apply bounded_bind_val; [apply bounded_open_w, Hm | intros mf w2 w3 Ho].
  apply open_w_ok in Ho as (_ & _ & -> & _).
  apply bounded_bind; [apply bounded_json_dump, Hm | intros _].
  apply bounded_print.
Qed.

(** X3: A run, whatever its outcome, writes no file but the blob and the
    manifest, and removes no file and no directory. *)
Theorem main_with_frame file order w r w' :
  main_with file order w = (r, w') →
  (∀ p, p ≠ BLOB_PATH file → p ≠ MANIFEST_PATH file →
        files w' !! p = files w !! p)
  ∧ (∀ p, is_Some (files w !! p) → is_Some (files w' !! p))
  ∧ dirs w ⊆ dirs w'.
Proof.
  intros H. destruct (bounded_main_with _ _ _ _ _ H) as (F & K & D & _).
  split; [|split; assumption].
  intros p Hb Hm. apply F. rewrite !elem_of_cons, elem_of_nil. tauto.
Qed.

Lemma main_with_frame_witness :
  let w' := Examples.after Examples.catalog Examples.good in
  (∀ p, p ≠ BLOB_PATH Examples.script → p ≠ MANIFEST_PATH Examples.script →
        files w' !! p = files Examples.good !! p)
  ∧ (∀ p, is_Some (files Examples.good !! p) → is_Some (files w' !! p))
  ∧ dirs Examples.good ⊆ dirs w'.
Proof.
  apply (main_with_frame Examples.script Examples.catalog Examples.good (Ok tt)).
  evaluate_run.
Defined.

(** X4: A run prints its one line when it returns, and nothing when it
    raises. *)
Theorem main_with_stdout file order w r w' :
  main_with file order w = (r, w') →
  stdout w' = stdout w
              ++ printed r [Wrote (BLOB_PATH file) (MANIFEST_PATH file)].
Proof.
  intros H. destruct (bounded_main_with _ _ _ _ _ H) as (_ & _ & _ & S).
  exact S.
Qed.

Lemma main_with_stdout_witness :
  stdout (Examples.after Examples.catalog Examples.incomplete)
  = stdout Examples.incomplete ++ [].
Proof.
  apply (main_with_stdout Examples.script Examples.catalog Examples.incomplete
           (Raise (MissingTensor (str "b") (str "stage1")))).
  evaluate_run.
Defined.

(** * More of the exporter *)

(** ** Loading the models *)

Lemma last_snoc_filter {A} (P : A → bool) (l : list A) (x : A) :
  last (List.filter P (l ++ [x]))
  = if P x then Some x else last (List.filter P l).
Proof.
  rewrite List.filter_app. simpl. destruct (P x).
  - apply last_snoc.
  - rewrite app_nil_r. reflexivity.
Qed.

Lemma initializers_lookup model name :
  initializers model !! name
  = last (List.filter (fun t => bool_decide (tp_name t = name)) model).
Proof.
  unfold initializers. induction model as [|t model IH] using rev_ind.
  - reflexivity.
  - rewrite foldl_app, last_snoc_filter. simpl. case_bool_decide as Hn.
    + rewrite Hn. apply lookup_insert_eq.
    + rewrite lookup_insert_ne by exact Hn. apply IH.
Qed.

(** X1: The dict comprehension of [load_initializers]: a name maps to the last
    initializer of the model that carries it, and to nothing when none
    does; the world is left as it was. *)
Theorem load_initializers_last p w model name :
  files w !! p = Some (Onnx model) →
  ∃ d, load_initializers p w = (Ok d, w)
       ∧ d !! name
         = last (List.filter (fun t => bool_decide (tp_name t = name)) model).
Proof.
  intros Hp. exists (initializers model). split.
  - apply load_initializers_ok. exists model.
    split; [apply loads_model, Hp | auto].
  - apply initializers_lookup.
Qed.

(** ** Converting an initializer *)

Lemma float32_bytes_from_initializer_raise t e :
  Forall (fun d => 0 <= d) (tp_dims t) →
  float32_bytes_from_initializer t = Raise e → e = ValueError.
Proof.
  intros Hpos. unfold float32_bytes_from_initializer, to_array.
  rewrite (reshape_exact _ _ Hpos).
  case_bool_decide; [intros [= <-]; reflexivity|].
  destruct (known_size _ 1); [|intros [= <-]; reflexivity].
  destruct (_ =? _); [|intros [= <-]; reflexivity].
  destruct (new_array _ _) as [arr|e'] eqn:E; [discriminate|].
  apply new_array_raise in E as ->. intros [= <-]. reflexivity.
Qed.

(** X2: [float32_bytes_from_initializer] on dims that are all positive: it
    returns when there are at most [NPY_MAXDIMS] dims and their product is
    the number of elements stored, no more than four-byte items can
    number; it then returns the elements in order, four bytes each.
    Anything it raises is a [ValueError]. *)
Theorem float32_bytes_from_initializer_spec t :
  Forall (fun d => 0 < d) (tp_dims t) →
  (∀ bs, float32_bytes_from_initializer t = Ok bs ↔
         (length (tp_dims t) ≤ NPY_MAXDIMS)%nat
         ∧ 4 * product (tp_dims t) <= NPY_MAX_INTP
         ∧ Z.of_nat (length (tp_data t)) = product (tp_dims t)
         ∧ bs = flat_map float32_bytes (tp_data t))
  ∧ (∀ e, float32_bytes_from_initializer t = Raise e → e = ValueError)
  ∧ (∀ bs, float32_bytes_from_initializer t = Ok bs →
           Z.of_nat (length bs) = 4 * product (tp_dims t)).
Proof.
  intros Hpos.
  assert (Hpos' : Forall (fun d => 0 <= d) (tp_dims t))
    by (eapply Forall_impl; [exact Hpos|]; simpl; intros; lia).
  assert (Hok : ∀ bs, float32_bytes_from_initializer t = Ok bs ↔
         (length (tp_dims t) ≤ NPY_MAXDIMS)%nat
         ∧ 4 * product (tp_dims t) <= NPY_MAX_INTP
         ∧ Z.of_nat (length (tp_data t)) = product (tp_dims t)
         ∧ bs = flat_map float32_bytes (tp_data t)).
  { intros bs. rewrite float32_bytes_from_initializer_ok. unfold to_array.
    split.
    - intros [[arr Harr] ->].
      apply (reshape_positive _ _ _ Hpos) in Harr as (Hn & Hb & Hlen & _).
      auto.
    - intros (Hn & Hb & Hlen & ->). split; [|reflexivity].
      eexists. apply (reshape_positive _ _ _ Hpos). eauto. }
  split; [exact Hok|].
  split; [intros e; apply float32_bytes_from_initializer_raise, Hpos'|].
  intros bs Hbs. apply Hok in Hbs as (_ & _ & Hlen & ->).
  rewrite length_float32_bytes. lia.
Qed.

(** ** Failures before the loop and in it *)

Lemma mkdir_clear p w :
  Forall (fun q => files w !! q = None) (ancestors p) →
  mkdir p w = (Ok tt, set_dirs (dirs w ∪ list_to_set (ancestors p)) w).
Proof.
  intros H. unfold mkdir.
  replace (existsb _ _) with false; [reflexivity|].
  symmetry. apply not_true_is_false. intros Hex.
  apply existsb_exists in Hex as (q & Hq & Hfile).
  apply bool_decide_eq_true_1 in Hfile as [c Hc].
  rewrite (proj1 (List.Forall_forall _ _) H q Hq) in Hc. discriminate.
Qed.

Lemma onnx_load_raise p w :
  files w !! p = None → onnx_load p w = (Raise (OSError p), w).
Proof. intros H. unfold onnx_load. rewrite H. reflexivity. Qed.

(** X5: The assets directory is made before the models are read: when the
    first of the two model files that is not there is [p], the run raises
    [OSError] for [p], having created the directory and its parents and
    written no file. *)
Theorem missing_model file order w p :
  Forall (fun q => files w !! q = None) (ancestors (ASSETS_DIR file)) →
  (p = MODELS_DIR file ++ ["model_1.onnx"%string]
   ∨ (holds_model w (MODELS_DIR file ++ ["model_1.onnx"%string])
      ∧ p = MODELS_DIR file ++ ["model_2.onnx"%string])) →
  files w !! p = None →
  main_with file order w
  = (Raise (OSError p),
     set_dirs (dirs w ∪ list_to_set (ancestors (ASSETS_DIR file))) w).
Proof.
  intros Hclear Hp Hno. rewrite main_with_phases.
  unfold mbind at 1, M_bind. unfold setup.
  rewrite (bind_step _ _ _ _ _ (mkdir_clear _ _ Hclear)).
  set (w1 := set_dirs _ w).
  assert (Hno1 : files w1 !! p = None) by exact Hno.
  unfold load_initializers.
  destruct Hp as [-> | [[m1 Hm1] ->]].
  - unfold mbind, M_bind. rewrite (onnx_load_raise _ _ Hno1). reflexivity.
  - unfold mbind, M_bind. unfold onnx_load at 1.
    change (files w1) with (files w). rewrite Hm1.
    cbn [parse_model mret M_ret].
    rewrite (onnx_load_raise _ _ Hno1). reflexivity.
Qed.

(** X7: A catalog entry of a stage other than "stage1" and "stage2": the lookup
    [models[stage]] raises [KeyError], and no file is written; the entries
    before it must have been accepted for the loop to get there. *)
Theorem unknown_stage file order w models w1 (i : nat) name expected stage :
  setup file w = (Ok models, w1) →
  order !! i = Some (name, expected, stage) →
  stage ≠ str "stage1" → stage ≠ str "stage2" →
  Forall (accepted models) (take i order) →
  main_with file order w = (Raise (KeyError stage), w1) ∧ files w1 = files w.
Proof.
  intros Hs Hi H1 H2 Hacc.
  assert (Hd : entry_for models (name, expected, stage) = Raise (KeyError stage)).
  { apply setup_ok in Hs as (_ & m1 & m2 & _ & _ & -> & _).
    unfold entry_for, models_of.
    rewrite lookup_insert_ne by (apply not_eq_sym, H2).
    rewrite lookup_insert_ne by (apply not_eq_sym, H1).
    rewrite lookup_empty. reflexivity. }
  destruct (main_with_rejects file order w models w1 i _ _ Hs Hi Hd)
    as (Hf & e & Hm & He).
  destruct (He Hacc) as [-> _]. auto.
Qed.

(** ** Running twice *)

Lemma existsb_is_file (w : World) (l : list Path) :
  existsb (fun q => bool_decide (is_Some (files w !! q))) l = false
  ↔ Forall (fun q => files w !! q = None) l.
Proof.
  induction l as [|q l IH]; simpl.
  - split; [constructor | reflexivity].
  - rewrite orb_false_iff, IH, Forall_cons, bool_decide_eq_false.
    rewrite <- eq_None_not_Some. reflexivity.
Qed.

Lemma model_not_output file (m : string) :
  MODELS_DIR file ++ [m] ≠ BLOB_PATH file
  ∧ MODELS_DIR file ++ [m] ≠ MANIFEST_PATH file.
Proof.
  unfold MODELS_DIR, BLOB_PATH, MANIFEST_PATH, ASSETS_DIR.
  split; intros H; apply (f_equal length) in H;
    rewrite !length_app in H; simpl in H; lia.
Qed.

(** X10: Running the exporter again right after a successful run succeeds again
    and leaves every file and every directory as the first run left it. *)
Theorem rerun_idempotent file order w w' :
  main_with file order w = (Ok tt, w') →
  ∃ w'', main_with file order w' = (Ok tt, w'')
         ∧ files w'' = files w' ∧ dirs w'' = dirs w'.
Proof.
  intros H. apply main_with_ok in H
    as (models & w1 & entries & rs & Hs & Hall & Hb & Hm & Hn & Hrs & Hwf & ->).
  apply setup_ok in Hs as (Hclear & m1 & m2 & H1 & H2 & -> & ->).
  apply existsb_is_file in Hclear.
  set (anc := ancestors (ASSETS_DIR file)) in *.
  set (w1 := set_dirs (dirs w ∪ list_to_set anc) w).
  set (w' := emitted file rs entries w1).
  destruct (model_not_output file "model_1.onnx") as [N1b N1m].
  destruct (model_not_output file "model_2.onnx") as [N2b N2m].
  assert (Hfiles : ∀ p, p ≠ BLOB_PATH file → p ≠ MANIFEST_PATH file →
                        files w' !! p = files w !! p).
  { intros p Hpb Hpm. unfold w', emitted, put. simpl.
    rewrite !lookup_insert_ne by (apply not_eq_sym; assumption). reflexivity. }
  assert (Hdirs : dirs w' = dirs w ∪ list_to_set anc) by reflexivity.
  assert (Hnb : BLOB_PATH file ∉ anc)
    by apply (child_not_ancestor (ASSETS_DIR file)).
  assert (Hnm : MANIFEST_PATH file ∉ anc)
    by apply (child_not_ancestor (ASSETS_DIR file)).
  set (w2 := set_dirs (dirs w' ∪ list_to_set anc) w').
  exists (emitted file rs entries w2).
  split; [|split].
  - apply main_with_ok. exists (models_of m1 m2), w2, entries, rs.
    split.
    { apply setup_ok. split.
      - apply existsb_is_file. apply Forall_forall. intros q Hq.
        rewrite Hfiles by (intros ->; contradiction).
        apply (proj1 (Forall_forall _ _) Hclear q Hq).
      - exists m1, m2.
        split; [destruct H1 as (c & Hc & Hp); exists c;
                rewrite Hfiles by assumption; auto|].
        split; [destruct H2 as (c & Hc & Hp); exists c;
                rewrite Hfiles by assumption; auto|].
        auto. }
    split; [exact Hall|].
    split; [rewrite Hdirs, elem_of_union, elem_of_list_to_set; tauto|].
    split; [rewrite Hdirs, elem_of_union, elem_of_list_to_set; tauto|].
    auto.
  - unfold emitted, put. simpl.
    rewrite insert_id; [rewrite insert_id; [reflexivity|]|].
    + apply (emitted_blob file rs entries w1).
    + rewrite insert_id by apply (emitted_blob file rs entries w1).
      apply (emitted_manifest file rs entries w1).
  - simpl. apply set_eq. intros q.
    rewrite !elem_of_union. tauto.
Qed.

(** ** A run that fails while it writes *)













(** ** The size of the blob *)

Lemma length_encode_dims dims :
  Z.of_nat (length (flat_map (le_bytes 4) dims)) = 4 * Z.of_nat (length dims).
Proof.
  induction dims as [|d dims IH]; [reflexivity|].
  cbn [flat_map]. rewrite length_app, length_le_bytes. cbn [length]. lia.
Qed.

Lemma length_encode_record r :
  Z.of_nat (length (encode_record r))
  = 11 + Z.of_nat (length (r_name_bytes r)) + 4 * Z.of_nat (length (r_dims r)).
Proof.
  unfold encode_record. rewrite !length_app, !length_le_bytes.
  pose proof (length_encode_dims (r_dims r)). lia.
Qed.

Lemma sum_Z_cons x l : sum_Z (x :: l) = x + sum_Z l.
Proof. reflexivity. Qed.

(** The bytes of a table and of a payload section, entry by entry. *)
Lemma length_sections {C} (h : C → Z) (lc : list C) rs entries :
  length rs = length lc → length entries = length lc →
  (∀ (i : nat) c, lc !! i = Some c →
     ∃ r e, rs !! i = Some r ∧ entries !! i = Some e
            ∧ Z.of_nat (length (encode_record r))
              + Z.of_nat (length (e_bytes e)) = h c) →
  Z.of_nat (length (encode_table rs))
  + Z.of_nat (length (concat (map e_bytes entries)))
  = sum_Z (map h lc).
Proof.
  revert rs entries. induction lc as [|c lc IH]; intros rs entries Hr He Hi.
  - destruct rs; [|discriminate]. destruct entries; [|discriminate].
    reflexivity.
  - destruct rs as [|r rs]; [discriminate|].
    destruct entries as [|e entries]; [discriminate|].
    rewrite encode_table_cons. cbn [map concat]. rewrite sum_Z_cons.
    rewrite !length_app, !Nat2Z.inj_add.
    destruct (Hi 0%nat c eq_refl) as (r0 & e0 & [= <-] & [= <-] & H0).
    specialize (IH rs entries).
    rewrite <- IH, <- H0; [lia | simpl in Hr; lia | simpl in He; lia|].
    intros i c' Hc'. apply (Hi (S i) c' Hc').
Qed.

Lemma blob_length file order w w' :
  main_with file order w = (Ok tt, w') →
  ∃ blob, files w' !! BLOB_PATH file = Some (Binary blob)
          ∧ Z.of_nat (length blob) = blob_size order.
Proof.
  intros H.
  destruct (run_facts _ _ _ _ H)
    as (models & w1 & entries & rs & _ & _ & Hblob & _ & Hle & Hlr & _
        & _ & _ & _ & Hidx).
  exists (blob_bytes rs entries). split; [exact Hblob|].
  unfold blob_bytes, blob_size, encode_header.
  rewrite !length_app, !length_le_bytes, !Nat2Z.inj_add.
  rewrite <- (length_sections entry_size order rs entries Hlr Hle).
  - change (length (magic (header_of (length entries)))) with 4%nat. lia.
  - intros i d Hd.
    destruct (Hidx i d Hd)
      as (e & r & He & Hr & _ & _ & _ & _ & Hb & Hp & Hnb & Hdims & _).
    exists r, e. split; [exact Hr|]. split; [exact He|].
    rewrite length_encode_record, Hdims, Hb, Hp.
    unfold entry_size, utf8_length. rewrite Hnb. lia.
Qed.

(** X11: The size of the blob of a successful run is fixed by the catalog: 14
    bytes of header and, for each entry, 11 bytes of fixed-width fields, the
    UTF-8 bytes of its name, 4 bytes a dimension and 4 bytes an element. *)
Theorem blob_size_catalog file order w w' :
  main_with file order w = (Ok tt, w') →
  ∃ blob, files w' !! BLOB_PATH file = Some (Binary blob)
          ∧ Z.of_nat (length blob) = blob_size order.
Proof. apply blob_length. Qed.

(** ** When a run succeeds *)

Lemma positive_le_product shape :
  Forall (fun n => 0 < n) shape →
  0 < product shape ∧ Forall (fun n => n <= product shape) shape.
Proof.
  induction 1 as [|d shape Hd _ [IH1 IH2]]; [split; [cbn; lia | constructor]|].
  rewrite product_cons. split; [lia|]. constructor; [nia|].
  eapply Forall_impl; [exact IH2|]. simpl. intros n Hn. nia.
Qed.

Lemma supplies_accepted models d :
  (length d.1.2 ≤ NPY_MAXDIMS)%nat → Forall (fun n => 0 < n) d.1.2 →
  product d.1.2 < 2 ^ 32 → supplies models d →
  ∃ e, entry_for models d = Ok e
       ∧ e_name e = d.1.1 ∧ e_shape e = d.1.2 ∧ e_len e = product d.1.2
       ∧ Z.of_nat (length (e_bytes e)) = 4 * product d.1.2.
Proof.
  destruct d as [[name shape] stage]. simpl.
  intros Hnd Hpos Hprod (pool & init & Hpool & Hinit & Hdims & Hlen).
  simpl in *.
  exists (entry_of name stage init). split.
  - apply entry_for_ok. exists pool, init.
    repeat (split; [assumption|]). split; [|reflexivity].
    unfold to_array. rewrite Hdims.
    rewrite (reshape_fits _ _ Hnd Hpos); [eauto | unfold NPY_MAX_INTP; lia | exact Hlen].
  - unfold entry_of. simpl. rewrite length_float32_bytes.
    repeat split; [assumption | assumption | lia].
Qed.

(** The table of entries whose fields fit, placed from [offset]. *)
Lemma table_of_fits entries offset :
  0 <= offset →
  Forall (fun e => (∃ b, encode_utf8 (e_name e) = Ok b
                         ∧ Z.of_nat (length b) < 2 ^ 16)
                   ∧ Z.of_nat (length (e_shape e)) < 2 ^ 8
                   ∧ Forall (fun n => 0 <= n < 2 ^ 32) (e_shape e)
                   ∧ 0 <= e_len e < 2 ^ 32) entries →
  offset + sum_Z (map (fun e => Z.of_nat (length (e_bytes e))) entries) < 2 ^ 32 →
  ∃ rs, table_of entries offset = Ok rs ∧ Forall record_wf rs.
Proof.
  intros Hoff Hall. revert offset Hoff.
  induction Hall as [|e entries ([b [Hb Hbl]] & Hn & Hdims & Hlen) _ IH];
    intros offset Hoff Hsum.
  - exists []. split; [reflexivity | constructor].
  - cbn [map] in Hsum.
    change (sum_Z (?x :: ?l)) with (x + sum_Z l) in Hsum.
    assert (Hrest : 0 <= sum_Z (map (fun e => Z.of_nat (length (e_bytes e)))
                                    entries)).
    { clear. induction entries as [|e entries IH]; [cbn; lia|].
      cbn [map]. change (sum_Z (?x :: ?l)) with (x + sum_Z l). lia. }
    destruct (IH (offset + Z.of_nat (length (e_bytes e)))) as (rs & Hrs & Hwf);
      [lia | lia |].
    exists (record_of b e offset :: rs). split.
    + cbn [table_of]. rewrite Hb. cbn [mbind result_bind]. rewrite Hrs.
      reflexivity.
    + constructor; [|exact Hwf]. unfold record_wf, record_of, fits. simpl.
      repeat split; try lia.
      eapply Forall_impl; [exact Hdims|]. simpl. intros; lia.
Qed.

Lemma run_succeeds file order w m1 m2 :
  Forall (fun q => files w !! q = None) (ancestors (ASSETS_DIR file)) →
  BLOB_PATH file ∉ dirs w → MANIFEST_PATH file ∉ dirs w →
  files w !! (MODELS_DIR file ++ ["model_1.onnx"%string]) = Some (Onnx m1) →
  files w !! (MODELS_DIR file ++ ["model_2.onnx"%string]) = Some (Onnx m2) →
  Forall (supplies (models_of m1 m2)) order →
  Forall descriptor_fits order →
  Z.of_nat (length order) < 2 ^ 32 →
  4 * sum_Z (map (fun d : TensorDescriptor => product d.1.2) order) < 2 ^ 32 →
  ∃ w', main_with file order w = (Ok tt, w').
Proof.
  intros Hclear Hb Hm H1 H2 Hsup Hfit Hn Hsum.
  set (models := models_of m1 m2) in *.
  assert (Hent : ∃ entries,
    Forall2 (fun d e => entry_for models d = Ok e) order entries
    ∧ Forall (fun e => (∃ b, encode_utf8 (e_name e) = Ok b
                            ∧ Z.of_nat (length b) < 2 ^ 16)
                      ∧ Z.of_nat (length (e_shape e)) < 2 ^ 8
                      ∧ Forall (fun n => 0 <= n < 2 ^ 32) (e_shape e)
                      ∧ 0 <= e_len e < 2 ^ 32) entries
    ∧ sum_Z (map (fun e => Z.of_nat (length (e_bytes e))) entries)
      = 4 * sum_Z (map (fun d : TensorDescriptor => product d.1.2) order)).
  { clear Hn Hsum. induction order as [|d order IH].
    - exists []. repeat split; constructor.
    - apply Forall_cons in Hsup as [Hd Hsup].
      apply Forall_cons in Hfit as [(Hname & Hnd & Hdims & Hprod) Hfit].
      destruct (encode_utf8 d.1.1) as [b|] eqn:Hb'; [|contradiction].
      destruct (IH Hsup Hfit) as (entries & Hall & Hok & Hs).
      destruct (positive_le_product _ Hdims) as [Hprod0 Hle].
      destruct (supplies_accepted models d Hnd Hdims Hprod Hd)
        as (e & He & En & Es & El & Eb).
      exists (e :: entries). split; [constructor; assumption|]. split.
      + constructor; [|exact Hok]. rewrite En, Es, El.
        split; [eauto|]. split; [unfold NPY_MAXDIMS in Hnd; lia|].
        split; [|lia].
        apply Forall_forall. intros n Hin.
        pose proof (proj1 (Forall_forall _ _) Hdims n Hin).
        pose proof (proj1 (Forall_forall _ _) Hle n Hin).
        simpl in *. lia.
      + cbn [map]. change (sum_Z (?x :: ?l)) with (x + sum_Z l).
        rewrite Hs, Eb. lia. }
  destruct Hent as (entries & Hall & Hok & Hs).
  destruct (table_of_fits entries 0) as (rs & Hrs & Hwf); [lia | exact Hok | lia|].
  exists (emitted file rs entries
            (set_dirs (dirs w ∪ list_to_set (ancestors (ASSETS_DIR file))) w)).
  apply main_with_ok.
  exists models, (set_dirs (dirs w ∪ list_to_set (ancestors (ASSETS_DIR file))) w),
    entries, rs.
  split.
  { apply setup_ok. split; [apply existsb_is_file, Hclear|].
    exists m1, m2. auto using loads_model. }
  split; [exact Hall|]. split; [exact Hb|]. split; [exact Hm|].
  split; [|auto].
  rewrite (Forall2_length _ _ _ Hall) in Hn. unfold fits. simpl. lia.
Qed.

(** X12: The run succeeds when the output locations can be written, both model
    files hold models that supply every catalog entry, every entry has a
    name of fewer than 2^16 bytes and a shape of at most [NPY_MAXDIMS]
    positive dimensions, there are fewer than 2^32 entries, and the payload
    section is shorter than 2^32 bytes. *)
Theorem main_with_succeeds file order w m1 m2 :
  Forall (fun q => files w !! q = None) (ancestors (ASSETS_DIR file)) →
  BLOB_PATH file ∉ dirs w → MANIFEST_PATH file ∉ dirs w →
  files w !! (MODELS_DIR file ++ ["model_1.onnx"%string]) = Some (Onnx m1) →
  files w !! (MODELS_DIR file ++ ["model_2.onnx"%string]) = Some (Onnx m2) →
  Forall (supplies (models_of m1 m2)) order →
  Forall descriptor_fits order →
  Z.of_nat (length order) < 2 ^ 32 →
  4 * sum_Z (map (fun d : TensorDescriptor => product d.1.2) order) < 2 ^ 32 →
  ∃ w', main_with file order w = (Ok tt, w').
Proof. apply run_succeeds. Qed.

(** ** More failures of the loop and of the set-up *)

Lemma entry_for_inconsistent models name expected stage pool init :
  models !! stage = Some pool → pool !! name = Some init →
  infer_shape init = expected →
  Forall (fun n => 0 <= n) expected →
  Z.of_nat (length (tp_data init)) ≠ product expected →
  entry_for models (name, expected, stage) = Raise ValueError.
Proof.
  intros Hpool Hinit Hs Hpos Hne. unfold entry_for. rewrite Hpool, Hinit.
  rewrite bool_decide_eq_false_2 by (intros Hc; apply Hc, Hs).
  unfold float32_bytes_from_initializer, to_array.
  unfold infer_shape in Hs. rewrite Hs, (reshape_mismatch _ _ Hpos Hne).
  reflexivity.
Qed.

(** X8: A tensor of the expected shape that does not hold as many elements as
    the shape announces: the conversion raises [ValueError] when the loop
    gets to it, and no file is written. *)
Theorem inconsistent_tensor file order w models w1 (i : nat) name expected
    stage pool init :
  setup file w = (Ok models, w1) →
  order !! i = Some (name, expected, stage) →
  models !! stage = Some pool → pool !! name = Some init →
  infer_shape init = expected →
  Forall (fun n => 0 <= n) expected →
  Z.of_nat (length (tp_data init)) ≠ product expected →
  Forall (accepted models) (take i order) →
  main_with file order w = (Raise ValueError, w1) ∧ files w1 = files w.
Proof.
  intros Hs Hi Hpool Hinit Hsh Hpos Hne Hacc.
  destruct (main_with_rejects file order w models w1 i _ _ Hs Hi
              (entry_for_inconsistent _ _ _ _ _ _ Hpool Hinit Hsh Hpos Hne))
    as (Hf & e & Hm & He).
  destruct (He Hacc) as [-> _]. auto.
Qed.

(** X6: A file where the assets directory or one of its parents should be:
    [mkdir] raises [OSError] and the run ends there, the world as it
    was. *)
Theorem blocked_assets_dir file order w q :
  q ∈ ancestors (ASSETS_DIR file) → is_Some (files w !! q) →
  main_with file order w = (Raise (OSError (ASSETS_DIR file)), w).
Proof.
  intros Hq Hfile. rewrite main_with_phases.
  unfold mbind at 1, M_bind. unfold setup, mbind at 1, M_bind, mkdir.
  replace (existsb _ _) with true; [reflexivity|].
  symmetry. apply existsb_exists. exists q. split.
  - apply list_elem_of_In, Hq.
  - apply bool_decide_eq_true_2, Hfile.
Qed.

(** ** The properties above, on example runs *)

Lemma load_initializers_last_witness :
  ∃ d, load_initializers (MODELS_DIR Examples.script ++ ["model_1.onnx"%string])
         Examples.doubled = (Ok d, Examples.doubled)
       ∧ d !! str "a"
         = last (List.filter (fun t => bool_decide (tp_name t = str "a"))
                   [Examples.tensor_a; Examples.tensor_a_flat]).
Proof.
  apply (load_initializers_last _ Examples.doubled).
  vm_compute. reflexivity.
Defined.

Lemma float32_bytes_from_initializer_spec_witness :
  (∀ bs, float32_bytes_from_initializer Examples.tensor_a = Ok bs ↔
         (length (tp_dims Examples.tensor_a) ≤ NPY_MAXDIMS)%nat
         ∧ 4 * product (tp_dims Examples.tensor_a) <= NPY_MAX_INTP
         ∧ Z.of_nat (length (tp_data Examples.tensor_a))
           = product (tp_dims Examples.tensor_a)
         ∧ bs = flat_map float32_bytes (tp_data Examples.tensor_a))
  ∧ (∀ e, float32_bytes_from_initializer Examples.tensor_a = Raise e →
          e = ValueError)
  ∧ (∀ bs, float32_bytes_from_initializer Examples.tensor_a = Ok bs →
           Z.of_nat (length bs) = 4 * product (tp_dims Examples.tensor_a)).
Proof.
  apply (float32_bytes_from_initializer_spec Examples.tensor_a).
  repeat constructor.
Defined.

Lemma missing_model_witness :
  main_with Examples.script Examples.catalog Examples.half
  = (Raise (OSError (MODELS_DIR Examples.script ++ ["model_2.onnx"%string])),
     set_dirs (dirs Examples.half
               ∪ list_to_set (ancestors (ASSETS_DIR Examples.script)))
       Examples.half).
Proof.
  apply (missing_model Examples.script Examples.catalog Examples.half).
  - apply existsb_is_file. vm_compute. reflexivity.
  - right. split; [|reflexivity].
    exists [Examples.tensor_a; Examples.tensor_b]. vm_compute. reflexivity.
  - vm_compute. reflexivity.
Defined.

Lemma unknown_stage_witness :
  main_with Examples.script Examples.stray Examples.good
  = (Raise (KeyError (str "stage3")), snd (setup Examples.script Examples.good))
  ∧ files (snd (setup Examples.script Examples.good)) = files Examples.good.
Proof.
  apply (unknown_stage Examples.script Examples.stray Examples.good
           (models_of [Examples.tensor_a; Examples.tensor_b] [])
           _ 1%nat (str "b") [3] (str "stage3")).
  - evaluate_run.
  - reflexivity.
  - vm_compute. discriminate.
  - vm_compute. discriminate.
  - repeat constructor. apply accepted_is_ok. vm_compute. reflexivity.
Defined.

Lemma inconsistent_tensor_witness :
  main_with Examples.script Examples.catalog Examples.inconsistent
  = (Raise ValueError, snd (setup Examples.script Examples.inconsistent))
  ∧ files (snd (setup Examples.script Examples.inconsistent))
    = files Examples.inconsistent.
Proof.
  apply (inconsistent_tensor Examples.script Examples.catalog
           Examples.inconsistent
           (models_of [Examples.tensor_a; Examples.tensor_b_odd] [])
           _ 1%nat (str "b") [3] (str "stage1")
           (initializers [Examples.tensor_a; Examples.tensor_b_odd])
           Examples.tensor_b_odd).
  - evaluate_run.
  - reflexivity.
  - vm_compute. reflexivity.
  - vm_compute. reflexivity.
  - reflexivity.
  - repeat constructor; discriminate.
  - vm_compute. discriminate.
  - repeat constructor. apply accepted_is_ok. vm_compute. reflexivity.
Defined.

Lemma blocked_assets_dir_witness :
  main_with Examples.script Examples.catalog Examples.blocked
  = (Raise (OSError (ASSETS_DIR Examples.script)), Examples.blocked).
Proof.
  apply (blocked_assets_dir Examples.script Examples.catalog Examples.blocked
           (ROOT Examples.script ++ ["assets"%string])).
  - vm_compute. apply list_elem_of_further, list_elem_of_further,
      list_elem_of_here.
  - vm_compute. eauto.
Defined.

Lemma rerun_idempotent_witness :
  let w' := Examples.after Examples.catalog Examples.good in
  ∃ w'', main_with Examples.script Examples.catalog w' = (Ok tt, w'')
         ∧ files w'' = files w' ∧ dirs w'' = dirs w'.
Proof.
  apply (rerun_idempotent Examples.script Examples.catalog Examples.good).
  evaluate_run.
Defined.


Lemma blob_size_catalog_witness :
  ∃ blob,
    files (Examples.after Examples.catalog Examples.good)
      !! BLOB_PATH Examples.script = Some (Binary blob)
    ∧ Z.of_nat (length blob) = blob_size Examples.catalog.
Proof.
  apply (blob_size_catalog Examples.script Examples.catalog Examples.good).
  evaluate_run.
Defined.

Lemma main_with_succeeds_witness :
  ∃ w', main_with Examples.script Examples.catalog Examples.good = (Ok tt, w').
Proof.
  apply (main_with_succeeds Examples.script Examples.catalog Examples.good
           [Examples.tensor_a; Examples.tensor_b] []).
  - apply existsb_is_file. vm_compute. reflexivity.
  - apply not_elem_of_empty.
  - apply not_elem_of_empty.
  - vm_compute. reflexivity.
  - vm_compute. reflexivity.
  - repeat constructor.
    + exists (initializers [Examples.tensor_a; Examples.tensor_b]),
        Examples.tensor_a.
      repeat split; vm_compute; reflexivity.
    + exists (initializers [Examples.tensor_a; Examples.tensor_b]),
        Examples.tensor_b.
      repeat split; vm_compute; reflexivity.
  - repeat constructor; vm_compute; try reflexivity; lia.
  - vm_compute. reflexivity.
  - vm_compute. reflexivity.
Defined.

(** ** The catalog the exporter ships with *)

Lemma descriptor_fitsb_fits d : descriptor_fitsb d = true → descriptor_fits d.
Proof.
  unfold descriptor_fitsb, descriptor_fits.
  rewrite !andb_true_iff, forallb_forall, bool_decide_eq_true.
  intros [[[H1 H2] H3] H4].
  split; [destruct (encode_utf8 d.1.1); [lia | discriminate]|].
  split; [exact H2|]. split; [|lia].
  apply List.Forall_forall. intros n Hn. specialize (H3 n Hn). lia.
Qed.

Lemma last_filter_Some {A} (P : A → bool) (l : list A) x :
  x ∈ l → P x = true → ∃ y, last (List.filter P l) = Some y ∧ y ∈ l ∧ P y = true.
Proof.
  induction l as [|a l IH] using rev_ind; intros Hx HP.
  - apply elem_of_nil in Hx as [].
  - rewrite last_snoc_filter. destruct (P a) eqn:Ha.
    + exists a. rewrite elem_of_app, list_elem_of_singleton. auto.
    + apply elem_of_app in Hx as [Hx | Hx].
      * destruct (IH Hx HP) as (y & Hy & Hin & Hpy). exists y.
        rewrite elem_of_app. auto.
      * apply list_elem_of_singleton in Hx as ->. congruence.
Qed.

(** [model_for] supplies the entries of its stage, when the catalog gives
    each name one shape. *)
Lemma model_for_supplies order m1 m2 (d : TensorDescriptor) :
  m1 = model_for (str "stage1") order → m2 = model_for (str "stage2") order →
  (∀ d1 d2 : TensorDescriptor,
     d1 ∈ order → d2 ∈ order → d1.1.1 = d2.1.1 → d1.1.2 = d2.1.2) →
  d ∈ order → (d.2 = str "stage1" ∨ d.2 = str "stage2") →
  Forall (fun n => 0 <= n) d.1.2 →
  supplies (models_of m1 m2) d.
Proof.
  intros -> -> Hshape Hd Hstage Hpos.
  assert (Hpool : ∃ pool, models_of (model_for (str "stage1") order)
                            (model_for (str "stage2") order) !! d.2 = Some pool
                          ∧ pool = initializers (model_for d.2 order)).
  { unfold models_of. destruct Hstage as [-> | ->].
    - rewrite lookup_insert_ne by discriminate. rewrite lookup_insert_eq. eauto.
    - rewrite lookup_insert_eq. eauto. }
  destruct Hpool as (pool & Hpool & ->).
  set (t := {| tp_name := d.1.1; tp_dims := d.1.2;
               tp_data := zeros (product d.1.2) |}).
  assert (Ht : t ∈ model_for d.2 order).
  { unfold model_for. apply list_elem_of_fmap. exists d. split; [reflexivity|].
    apply list_elem_of_In, filter_In. split; [apply list_elem_of_In, Hd|].
    apply bool_decide_eq_true_2. reflexivity. }
  destruct (last_filter_Some (fun t => bool_decide (tp_name t = d.1.1)) _ t Ht)
    as (init & Hlast & Hin & Hname); [apply bool_decide_eq_true_2; reflexivity|].
  apply bool_decide_eq_true_1 in Hname.
  unfold model_for in Hin. apply list_elem_of_fmap in Hin as (d' & -> & Hd').
  apply list_elem_of_In, filter_In in Hd' as [Hd' _].
  apply list_elem_of_In in Hd'. simpl in Hname.
  pose proof (Hshape d' d Hd' Hd Hname) as Hsame.
  exists (initializers (model_for d.2 order)),
    {| tp_name := d'.1.1; tp_dims := d'.1.2;
       tp_data := zeros (product d'.1.2) |}.
  split; [exact Hpool|]. split; [rewrite initializers_lookup; exact Hlast|].
  simpl. split; [exact Hsame|]. rewrite Hsame. unfold zeros.
  rewrite repeat_length, Z2Nat.id; [reflexivity | apply product_nonneg, Hpos].
Qed.

(** X13: [main], on the catalog it ships with: when the output locations can be
    written and the two models supply every entry of [TENSOR_ORDER], the
    run succeeds, no field of the format overflows, and the blob is
    3952124 bytes long. *)
Theorem main_succeeds file w m1 m2 :
  Forall (fun q => files w !! q = None) (ancestors (ASSETS_DIR file)) →
  BLOB_PATH file ∉ dirs w → MANIFEST_PATH file ∉ dirs w →
  files w !! (MODELS_DIR file ++ ["model_1.onnx"%string]) = Some (Onnx m1) →
  files w !! (MODELS_DIR file ++ ["model_2.onnx"%string]) = Some (Onnx m2) →
  Forall (supplies (models_of m1 m2)) TENSOR_ORDER →
  ∃ w' blob,
    main file w = (Ok tt, w')
    ∧ files w' !! BLOB_PATH file = Some (Binary blob)
    ∧ Z.of_nat (length blob) = 3952124.
Proof.
  intros Hclear Hb Hm H1 H2 Hsup.
  destruct (run_succeeds file TENSOR_ORDER w m1 m2 Hclear Hb Hm H1 H2 Hsup)
    as [w' Hrun].
  - apply List.Forall_forall. intros d Hd. apply descriptor_fitsb_fits.
    revert d Hd. apply forallb_forall. vm_compute. reflexivity.
  - vm_compute. reflexivity.
  - vm_compute. reflexivity.
  - destruct (blob_length _ _ _ _ Hrun) as (blob & Hblob & Hlen).
    exists w', blob. split; [exact Hrun|]. split; [exact Hblob|].
    rewrite Hlen. vm_compute. reflexivity.
Qed.

Lemma main_succeeds_witness :
  ∃ w' blob,
    main Examples.script Examples.shipped = (Ok tt, w')
    ∧ files w' !! BLOB_PATH Examples.script = Some (Binary blob)
    ∧ Z.of_nat (length blob) = 3952124.
Proof.
  apply (main_succeeds Examples.script Examples.shipped
           (model_for (str "stage1") TENSOR_ORDER)
           (model_for (str "stage2") TENSOR_ORDER)).
  - unfold Examples.shipped, Examples.world. cbn [files].
    apply Forall_forall. intros q Hq.
    rewrite !lookup_insert_ne, lookup_empty; [reflexivity | |];
      intros <-; vm_compute in Hq;
      repeat (apply elem_of_cons in Hq as [Hq | Hq]; [discriminate|]);
      apply elem_of_nil in Hq as [].
  - apply not_elem_of_empty.
  - apply not_elem_of_empty.
  - unfold Examples.shipped, Examples.world. cbn [files].
    rewrite lookup_insert_ne by (vm_compute; discriminate).
    apply lookup_insert_eq.
  - unfold Examples.shipped, Examples.world. cbn [files]. apply lookup_insert_eq.
  - apply Forall_forall. intros d Hd.
    apply (model_for_supplies TENSOR_ORDER); try reflexivity; try exact Hd.
    + assert (Hnd : NoDup (map (fun d : TensorDescriptor => d.1.1) TENSOR_ORDER))
        by (apply (bool_decide_unpack _); vm_compute; exact I).
      intros d1 d2 Hd1 Hd2 Hname.
      apply list_elem_of_lookup in Hd1 as [i Hi], Hd2 as [j Hj].
      assert (i = j).
      { apply (NoDup_lookup _ i j d1.1.1 Hnd); rewrite list_lookup_fmap.
        - rewrite Hi. reflexivity.
        - rewrite Hj, Hname. reflexivity. }
      subst j. congruence.
    + revert d Hd. apply Forall_forall.
      apply (bool_decide_unpack _). vm_compute. exact I.
    + revert d Hd. apply Forall_forall.
      apply (bool_decide_unpack _). vm_compute. exact I.
Defined.
